(** * Candidate screening workflow (agency_script.py)

    A shallow embedding of the screening pipeline: the two classifier
    nodes, the router, the three terminal actions, the compiled
    workflow graph, the entry point [run_candidate_screening], the
    status colour of the user interface and the screening history kept
    in the session.

    Python values are modelled as follows.
    - [str] is a list of Unicode code points ([list N]); [in] on strings
      is contiguous-substring search and [strip] removes the characters
      Python counts as whitespace from both ends.
    - a [dict] with string keys (the [State] TypedDict, the records
      returned to the caller) is a [gmap string (list N)]; reading a
      missing key raises [KeyError].
    - a raised exception is the [Raise] case of [result].
    - the text-generation service is a function of the prompt and of a
      hidden [World] that it may read and change, so that nothing is
      assumed about its answers. *)

From Stdlib Require Import NArith Ascii String.
From stdpp Require Import gmap strings list fin_maps pretty.

(** ** Python strings *)

Module PyStr.

(** The code points of an ASCII literal. *)
Fixpoint lit (s : string) : list N :=
  match s with
  | EmptyString => []
  | String a s' => N_of_ascii a :: lit s'
  end.

(** [prefix.startswith]-style test: [p] is a prefix of [s]. *)
Fixpoint starts_with (p s : list N) : bool :=
  match p, s with
  | [], _ => true
  | _ :: _, [] => false
  | a :: p', b :: s' => (a =? b)%N && starts_with p' s'
  end.

(** [needle in hay] on Python strings. *)
Fixpoint py_in (needle hay : list N) : bool :=
  starts_with needle hay ||
  match hay with
  | [] => false
  | _ :: hay' => py_in needle hay'
  end.

(** [hay] holds [needle] as a contiguous substring. *)
Definition substring_of (needle hay : list N) : Prop :=
  ∃ pre post, hay = pre ++ needle ++ post.

(** [c.isspace()] for a single code point, as CPython's
    [_PyUnicode_IsWhitespace] lists them. *)
Definition isspace (c : N) : bool :=
  ((0x09 <=? c) && (c <=? 0x0D) ||
   (0x1C <=? c) && (c <=? 0x20) ||
   (c =? 0x85) || (c =? 0xA0) || (c =? 0x1680) ||
   (0x2000 <=? c) && (c <=? 0x200A) ||
   (c =? 0x2028) || (c =? 0x2029) || (c =? 0x202F) ||
   (c =? 0x205F) || (c =? 0x3000))%N.

Fixpoint lstrip (s : list N) : list N :=
  match s with
  | [] => []
  | c :: s' => if isspace c then lstrip s' else s
  end.

Definition rstrip (s : list N) : list N := reverse (lstrip (reverse s)).

(** [s.strip()] with no argument. *)
Definition strip (s : list N) : list N := rstrip (lstrip s).

(** [sep.join(parts)]. *)
Fixpoint join (sep : list N) (parts : list (list N)) : list N :=
  match parts with
  | [] => []
  | [p] => p
  | p :: rest => p ++ sep ++ join sep rest
  end.

Definition newline : list N := [10%N].

End PyStr.

Import PyStr.

(** ** Exceptions, results and dictionaries *)

Inductive exn :=
| BackendError (reason : list N)
| KeyError (key : string)
| ValueError (what : string)
| GraphRecursionError.

Inductive result (A : Type) :=
| Ok (a : A)
| Raise (e : exn).

Arguments Ok {A} a.
Arguments Raise {A} e.

(** [d[k]] on a dict with string keys. *)
Definition getitem (d : gmap string (list N)) (k : string) : result (list N) :=
  match d !! k with
  | Some v => Ok v
  | None => Raise (KeyError k)
  end.

(** [l.insert(i, x)] on a Python list: a negative index counts from the
    end, and an index outside the list is clamped to its ends. *)
Definition py_list_insert {A : Type} (i : Z) (x : A) (l : list A) : list A :=
  let n := Z.of_nat (length l) in
  let k := if (i <? 0)%Z then Z.max 0 (i + n) else Z.min i n in
  take (Z.to_nat k) l ++ x :: drop (Z.to_nat k) l.

(** ** The classifier port

    [llm] is the chat model built at module load. A call either yields a
    message or fails; what it answers may depend on anything, which the
    hidden [World] stands for. *)

Record AIMessage := { content : list N }.

Inductive outcome :=
| Replied (message : AIMessage)
| Failed (reason : list N).

Class ClassifierPort := {
  World : Type;
  llm : list N → World → World * outcome
}.

(** A prompt template is its literal text with named fields in it. *)
Inductive segment :=
| Text (s : list N)
| Field (name : string).

Fixpoint format_prompt (template : list segment) (vars : gmap string (list N))
  : result (list N) :=
  match template with
  | [] => Ok []
  | Text s :: template' =>
      match format_prompt template' vars with
      | Ok rest => Ok (s ++ rest)
      | Raise e => Raise e
      end
  | Field name :: template' =>
      match getitem vars name with
      | Ok v =>
          match format_prompt template' vars with
          | Ok rest => Ok (v ++ rest)
          | Raise e => Raise e
          end
      | Raise e => Raise e
      end
  end.

Section Effects.
Context `{ClassifierPort}.

(** Computations that may call the backend and may raise. *)
Definition M (A : Type) : Type := World → World * result A.

Definition ret {A : Type} (a : A) : M A := λ w, (w, Ok a).

Definition lift {A : Type} (r : result A) : M A := λ w, (w, r).

Definition bind {A B : Type} (m : M A) (k : A → M B) : M B :=
  λ w, match m w with
       | (w', Ok a) => k a w'
       | (w', Raise e) => (w', Raise e)
       end.

(** [llm.invoke(prompt)]: a failure of the service is raised. *)
Definition llm_invoke (prompt : list N) : M AIMessage :=
  λ w, match llm prompt w with
       | (w', Replied message) => (w', Ok message)
       | (w', Failed reason) => (w', Raise (BackendError reason))
       end.

End Effects.

Notation "x <- m ;; k" := (bind m (λ x, k))
  (at level 100, m at next level, right associativity).

Section Chain.
Context `{ClassifierPort}.

(** [(prompt | llm).invoke(vars)]. *)
Definition chain_invoke (prompt : list segment) (vars : gmap string (list N))
  : M AIMessage :=
  text <- lift (format_prompt prompt vars);;
  llm_invoke text.

End Chain.

(** ** The prompts

    Both templates end in the [{application}] field. *)

Definition lines (ls : list string) : list N := join newline (lit <$> ls).

Definition experience_prompt : list segment :=
  [ Text (lines
      [ "Based on the job application below, categorize the candidate's experience level.";
        "";
        "    Consider the following criteria:";
        "    - Entry-level: 0-2 years of experience, recent graduate, junior positions";
        "    - Mid-level: 3-7 years of experience, solid foundation, some leadership";
        "    - Senior-level: 8+ years of experience, leadership roles, expert knowledge";
        "";
        "    Respond with ONLY one of these exact phrases: 'Entry-level', 'Mid-level', or 'Senior-level'";
        "";
        "    Application: " ]);
    Field "application" ].

Definition skillset_prompt : list segment :=
  [ Text (lines
      [ "You are evaluating a candidate for a Python Developer position.";
        "";
        "    Required skills for this role:";
        "    - Python programming (mandatory)";
        "    - Web frameworks (Django, Flask, FastAPI)";
        "    - Database knowledge (SQL, PostgreSQL, MongoDB)";
        "    - Version control (Git)";
        "    - Testing frameworks";
        "    - API development";
        "    - Basic DevOps knowledge is a plus";
        "";
        "    Based on the application below, determine if the candidate's skills match our requirements.";
        "    Consider both direct mentions and transferable skills.";
        "";
        "    Respond with ONLY one of these exact phrases: 'Match' or 'No Match'";
        "";
        "    Application: " ]);
    Field "application" ].

(** ** The three fixed responses (each opens with an emoji) *)

Definition shortlist_message : list N :=
  0x1F389%N :: lit " Congratulations! Your application has been shortlisted. You will be contacted within 2-3 business days to schedule an HR interview. Our team will discuss the role details, compensation, and next steps with you.".

Definition forwarding_message : list N :=
  0x1F504%N :: lit " Thank you for your application. While your experience is impressive, your skillset doesn't align with our current Python Developer role. However, we're forwarding your profile to our recruitment team to explore other suitable opportunities within our organization.".

Definition decline_message : list N :=
  0x1F4DD%N :: lit " Thank you for your interest in our Python Developer position. After careful review, we've decided to move forward with other candidates whose experience and skills more closely match our current requirements. We encourage you to apply for future openings that align with your background.".

(** ** Nodes of the workflow

    A node reads the state and returns the keys it writes. *)

Section Nodes.
Context `{ClassifierPort}.

Definition categorize_experience (state : gmap string (list N))
  : M (gmap string (list N)) :=
  application <- lift (getitem state "application");;
  message <- chain_invoke experience_prompt {[ "application" := application ]};;
  let experience_level := strip (content message) in
  ret {[ "experience_level" := experience_level ]}.

Definition assess_skillset (state : gmap string (list N))
  : M (gmap string (list N)) :=
  application <- lift (getitem state "application");;
  message <- chain_invoke skillset_prompt {[ "application" := application ]};;
  let skill_match := strip (content message) in
  ret {[ "skill_match" := skill_match ]}.

Definition schedule_hr_interview (state : gmap string (list N))
  : M (gmap string (list N)) :=
  ret {[ "response" := shortlist_message ]}.

Definition escalate_to_recruiter (state : gmap string (list N))
  : M (gmap string (list N)) :=
  ret {[ "response" := forwarding_message ]}.

Definition reject_application (state : gmap string (list N))
  : M (gmap string (list N)) :=
  ret {[ "response" := decline_message ]}.

End Nodes.

(** The conditional edge after [assess_skillset]. The second key is read
    only when the first test fails. *)
Definition route_application (state : gmap string (list N)) : result string :=
  match getitem state "skill_match" with
  | Raise e => Raise e
  | Ok skill_match =>
      if py_in (lit "Match") skill_match then Ok "schedule_hr_interview"
      else
        match getitem state "experience_level" with
        | Raise e => Raise e
        | Ok experience_level =>
            if py_in (lit "Senior-level") experience_level
            then Ok "escalate_to_recruiter"
            else Ok "reject_application"
        end
  end.

Definition get_status_color (skill_match experience_level : list N) : string :=
  if py_in (lit "Match") skill_match then "success"
  else if py_in (lit "Senior-level") experience_level then "warning"
  else "error".

(** ** The state graph and its execution

    The graph of this program is a chain with one branch: every node has
    at most one outgoing edge or one conditional edge, so one node runs
    per step. A step runs the node on the current state, writes the keys
    it returns over the state, and follows the edge; the conditional
    edge reads the state with the node's writes applied. [stream] lists
    the state values after the input and after each step; [invoke]
    returns the last of them, or raises what the run raised. *)

Definition START : string := "__start__".
Definition END : string := "__end__".

(** The default bound on the number of steps of one run. *)
Definition recursion_limit : nat := 25.

Section Graph.
Context `{ClassifierPort}.

Record StateGraph := {
  nodes : gmap string (gmap string (list N) → M (gmap string (list N)));
  edges : gmap string string;
  branches : gmap string (gmap string (list N) → result string)
}.

Definition empty_graph : StateGraph :=
  {| nodes := ∅; edges := ∅; branches := ∅ |}.

Definition add_node (name : string)
    (action : gmap string (list N) → M (gmap string (list N)))
    (g : StateGraph) : StateGraph :=
  {| nodes := <[name := action]> (nodes g);
     edges := edges g;
     branches := branches g |}.

Definition add_edge (source target : string) (g : StateGraph) : StateGraph :=
  {| nodes := nodes g;
     edges := <[source := target]> (edges g);
     branches := branches g |}.

Definition add_conditional_edges (source : string)
    (path : gmap string (list N) → result string)
    (g : StateGraph) : StateGraph :=
  {| nodes := nodes g;
     edges := edges g;
     branches := <[source := path]> (branches g) |}.

(** Where the run goes after [node]; a node without outgoing edge ends it. *)
Definition next_node (g : StateGraph) (node : string)
    (state : gmap string (list N)) : result string :=
  match edges g !! node with
  | Some target => Ok target
  | None =>
      match branches g !! node with
      | Some path => path state
      | None => Ok END
      end
  end.

Fixpoint pregel_loop (limit : nat) (g : StateGraph) (node : string)
    (state : gmap string (list N)) (w : World)
  : World * (list (gmap string (list N)) * option exn) :=
  if decide (node = END) then (w, ([], None))
  else
    match limit with
    | O => (w, ([], Some GraphRecursionError))
    | S limit' =>
        match nodes g !! node with
        | None => (w, ([], Some (ValueError node)))
        | Some action =>
            match action state w with
            | (w', Raise e) => (w', ([], Some e))
            | (w', Ok update) =>
                let state' := update ∪ state in
                match next_node g node state' with
                | Raise e => (w', ([], Some e))
                | Ok target =>
                    let '(w'', (values, err)) :=
                      pregel_loop limit' g target state' w' in
                    (w'', (state' :: values, err))
                end
            end
        end
    end.

Definition stream (g : StateGraph) (input : gmap string (list N)) (w : World)
  : World * (list (gmap string (list N)) * option exn) :=
  match next_node g START input with
  | Raise e => (w, ([input], Some e))
  | Ok first =>
      let '(w', (values, err)) := pregel_loop recursion_limit g first input w in
      (w', (input :: values, err))
  end.

Definition invoke (g : StateGraph) (input : gmap string (list N))
  : M (gmap string (list N)) :=
  λ w, match stream g input w with
       | (w', (_, Some e)) => (w', Raise e)
       | (w', (values, None)) => (w', Ok (default ∅ (last values)))
       end.

(** ** The workflow, in the order the module builds it *)

Definition workflow : StateGraph :=
  foldl (λ g build, build g) empty_graph
    [ add_node "categorize_experience" categorize_experience;
      add_node "assess_skillset" assess_skillset;
      add_node "schedule_hr_interview" schedule_hr_interview;
      add_node "escalate_to_recruiter" escalate_to_recruiter;
      add_node "reject_application" reject_application;
      add_edge START "categorize_experience";
      add_edge "categorize_experience" "assess_skillset";
      add_conditional_edges "assess_skillset" route_application;
      add_edge "schedule_hr_interview" END;
      add_edge "escalate_to_recruiter" END;
      add_edge "reject_application" END ].

(** [app = workflow.compile()]; the entry point invokes it. *)
Definition app : StateGraph := workflow.

Definition run_candidate_screening (application : list N)
  : M (gmap string (list N)) :=
  results <- invoke app {[ "application" := application ]};;
  experience_level <- lift (getitem results "experience_level");;
  skill_match <- lift (getitem results "skill_match");;
  response <- lift (getitem results "response");;
  ret {[ "experience_level" := experience_level;
         "skill_match" := skill_match;
         "response" := response ]}.

(** ** The screening history of the session

    [timestamp] is the formatted clock reading of the request. *)

Definition screening_result (timestamp application_text : list N)
    (results : gmap string (list N)) : gmap string (list N) :=
  results ∪
  {[ "timestamp" := timestamp;
     "application" :=
       if decide (100 < length application_text)
       then take 100 application_text ++ lit "..."
       else application_text ]}.

(** The "Screen Application" button. A failed run is reported and the
    history is left as it was; blank input is refused. *)
Definition on_screen (timestamp application_text : list N)
    (screening_history : list (gmap string (list N))) (w : World)
  : World * list (gmap string (list N)) :=
  match strip application_text with
  | [] => (w, screening_history)
  | _ :: _ =>
      match run_candidate_screening application_text w with
      | (w', Ok results) =>
          (w', py_list_insert 0
                 (screening_result timestamp application_text results)
                 screening_history)
      | (w', Raise _) => (w', screening_history)
      end
  end.

End Graph.

(** The entries the page lists: [screening_history[:5]]. *)
Definition shown_history {A : Type} (screening_history : list A) : list A :=
  take 5 screening_history.

(** The "Clear History" button. *)
Definition on_clear {A : Type} (screening_history : list A) : list A := [].

(** What the user does on the page, one button press at a time. *)
Inductive event :=
| ScreenApplication (timestamp application_text : list N)
| ClearHistory.

Section Session.
Context `{ClassifierPort}.

Definition handle (e : event) (screening_history : list (gmap string (list N)))
    (w : World) : World * list (gmap string (list N)) :=
  match e with
  | ScreenApplication timestamp application_text =>
      on_screen timestamp application_text screening_history w
  | ClearHistory => (w, on_clear screening_history)
  end.

Fixpoint session (events : list event)
    (screening_history : list (gmap string (list N))) (w : World)
  : World * list (gmap string (list N)) :=
  match events with
  | [] => (w, screening_history)
  | e :: events' =>
      let '(w', screening_history') := handle e screening_history w in
      session events' screening_history' w'
  end.

(** The history entries of the screenings among [events] that complete,
    oldest first. *)
Fixpoint completed (events : list event) (w : World)
  : list (gmap string (list N)) :=
  match events with
  | [] => []
  | ClearHistory :: events' => completed events' w
  | ScreenApplication timestamp application_text :: events' =>
      match strip application_text with
      | [] => completed events' w
      | _ :: _ =>
          match run_candidate_screening application_text w with
          | (w', Ok results) =>
              screening_result timestamp application_text results
              :: completed events' w'
          | (w', Raise _) => completed events' w'
          end
      end
  end.

End Session.

(** ** Names used in the statements *)

(** The text sent to the backend for [application] under a template. *)
Definition prompt_text (template : list segment) (application : list N) : list N :=
  match format_prompt template {[ "application" := application ]} with
  | Ok text => text
  | Raise _ => []
  end.

(** Every character of [s] is whitespace. *)
Definition all_space (s : list N) : Prop := Forall (λ c, isspace c = true) s.

(** [s] neither starts nor ends with whitespace. *)
Definition trimmed (s : list N) : Prop :=
  (∀ c, head s = Some c → isspace c = false) ∧
  (∀ c, last s = Some c → isspace c = false).

(** The record fields in the order the pipeline fills them. *)
Definition field_order : list string :=
  [ "application"; "experience_level"; "skill_match"; "response" ].

(** The states of a complete run, one per stage. *)
Definition filled (application experience_level skill_match response : list N)
  : list (gmap string (list N)) :=
  let submitted : gmap string (list N) := {[ "application" := application ]} in
  let classified := <[ "experience_level" := experience_level ]> submitted in
  let assessed := <[ "skill_match" := skill_match ]> classified in
  [ submitted; classified; assessed; <[ "response" := response ]> assessed ].

(** The node name the priority rule picks. *)
Definition route_of (skill_match experience_level : list N) : string :=
  if py_in (lit "Match") skill_match then "schedule_hr_interview"
  else if py_in (lit "Senior-level") experience_level
       then "escalate_to_recruiter"
       else "reject_application".

(** The response of the node a route names. *)
Definition response_of (route : string) : list N :=
  if decide (route = "schedule_hr_interview") then shortlist_message
  else if decide (route = "escalate_to_recruiter") then forwarding_message
  else decline_message.

(** ** The application form and the figures on the page *)

(** The text built from the "Fill Application Form" fields. It stays
    empty unless a name and at least one skill are given. *)
Definition form_application_text (name : list N) (experience_years : Z)
    (skills : list (list N)) (additional_info : list N) : list N :=
  if bool_decide (name ≠ [] ∧ skills ≠ [])
  then
    newline ++
    lit "                Name: " ++ name ++ newline ++
    lit "                Experience: " ++ lit (pretty experience_years) ++
    lit " years" ++ newline ++
    lit "                Skills: " ++ join (lit ", ") skills ++ newline ++
    lit "                Additional Information: " ++ additional_info ++ newline ++
    lit "                "
  else [].

(** The figures of "Quick Stats". *)
Record stats := {
  total_applications : Z;
  shortlisted : Z;
  escalated : Z;
  rejected : Z
}.

Section Figures.

(** [str.lower], which goes by the Unicode tables. *)
Variable lower : list N → list N.

(** The box of "Final Decision": [st.success], [st.warning] or
    [st.error]. *)
Definition decision_box (response : list N) : string :=
  if py_in (lit "shortlisted") (lower response) then "success"
  else if py_in (lit "forwarding") (lower response) then "warning"
  else "error".

(** [sum(1 for app in history if word in app["response"].lower())]. *)
Fixpoint count_responses (word : list N)
    (screening_history : list (gmap string (list N))) : result Z :=
  match screening_history with
  | [] => Ok 0%Z
  | entry :: rest =>
      match getitem entry "response" with
      | Raise e => Raise e
      | Ok response =>
          match count_responses word rest with
          | Raise e => Raise e
          | Ok n => Ok (if py_in word (lower response) then (1 + n)%Z else n)
          end
      end
  end.

(** Shown only while the history is not empty. *)
Definition quick_stats (screening_history : list (gmap string (list N)))
  : option (result stats) :=
  match screening_history with
  | [] => None
  | _ :: _ =>
      Some
        (let total := Z.of_nat (length screening_history) in
         match count_responses (lit "shortlisted") screening_history with
         | Raise e => Raise e
         | Ok n_shortlisted =>
             match count_responses (lit "forwarding") screening_history with
             | Raise e => Raise e
             | Ok n_escalated =>
                 Ok {| total_applications := total;
                       shortlisted := n_shortlisted;
                       escalated := n_escalated;
                       rejected := (total - n_shortlisted - n_escalated)%Z |}
             end
         end)
  end.

End Figures.

(** What [str.lower] does to an ASCII character. *)
Definition ascii_lower (c : N) : N :=
  if ((65 <=? c) && (c <=? 90))%N then (c + 32)%N else c.

(** [lower] on text made of ASCII and the three emoji of the responses,
    which have no case: it lowers the ASCII letters and keeps the rest. *)
Definition lowers_plain_text (lower : list N → list N) : Prop :=
  ∀ s, Forall (λ c, (c < 128)%N ∨ c ∈ [0x1F389; 0x1F504; 0x1F4DD]%N) s →
       lower s = ascii_lower <$> s.

(** A history entry as the page reads it back. *)
Definition well_formed_entry (entry : gmap string (list N)) : Prop :=
  dom entry =
    list_to_set [ "timestamp"; "application"; "experience_level";
                  "skill_match"; "response" ] ∧
  (∃ response, entry !! "response" = Some response ∧
               response ∈ [shortlist_message; forwarding_message; decline_message]) ∧
  (∃ application, entry !! "application" = Some application ∧
                  length application ≤ 103).

(** The number of entries of a history with a given response. *)
Definition count_message (message : list N)
    (screening_history : list (gmap string (list N))) : Z :=
  Z.of_nat (length (filter (λ entry, entry !! "response" = Some message)
                           screening_history)).

(** A port that also keeps the prompts it was sent, oldest first. *)
Definition logged (port : ClassifierPort) : ClassifierPort :=
  {| World := @World port * list (list N);
     llm := λ prompt state,
       let '(w', answer) := @llm port prompt state.1 in
       ((w', state.2 ++ [prompt]), answer) |}.

(** ** The terminal version

    Standard input is the list of lines still to be read; standard
    output is the list of texts written so far. [print] ends its text
    with a newline, [input] writes its prompt as it is and fails at the
    end of the input. *)

Definition print (text : list N) (stdout : list (list N)) : list (list N) :=
  stdout ++ [text ++ newline].

Definition write_prompt (prompt : list N) (stdout : list (list N))
  : list (list N) :=
  stdout ++ [prompt].

(** ["=" * n]. *)
Definition rule (n : nat) : list N := replicate n 61%N.

Inductive ending :=
| Exited
| EndOfInput
| Crashed (e : exn).

(** The lines printed for a result; a missing key raises after the lines
    before it are out. *)
Definition print_results (results : gmap string (list N))
    (stdout : list (list N)) : list (list N) * option exn :=
  let stdout := print (newline ++ 0x1F4CA%N :: lit " SCREENING RESULTS") stdout in
  let stdout := print (rule 30) stdout in
  match getitem results "experience_level" with
  | Raise e => (stdout, Some e)
  | Ok experience_level =>
      let stdout := print (lit "Experience Level: " ++ experience_level) stdout in
      match getitem results "skill_match" with
      | Raise e => (stdout, Some e)
      | Ok skill_match =>
          let stdout := print (lit "Skill Match: " ++ skill_match) stdout in
          let stdout :=
            print (newline ++ 0x1F4AC%N :: lit " Final Decision:") stdout in
          match getitem results "response" with
          | Raise e => (stdout, Some e)
          | Ok response =>
              let stdout := print response stdout in
              (print (rule 50) stdout, None)
          end
      end
  end.

Section Terminal.
Context `{ClassifierPort}.

Record terminal_run := {
  stdout_after : list (list N);
  unread : list (list N);
  world_after : World;
  how_ended : ending
}.

(** The [while True] loop. *)
Fixpoint terminal_loop (stdin stdout : list (list N)) (w : World)
  : terminal_run :=
  let stdout := print (newline ++ lit "Options:") stdout in
  let stdout := print (lit "1. Screen a candidate") stdout in
  let stdout := print (lit "2. Exit") stdout in
  let stdout := write_prompt (newline ++ lit "Enter your choice (1-2): ") stdout in
  match stdin with
  | [] => {| stdout_after := stdout; unread := []; world_after := w;
             how_ended := EndOfInput |}
  | line :: stdin1 =>
      let choice := strip line in
      if decide (choice = lit "1") then
        let stdout := print (newline ++ rule 50) stdout in
        let stdout :=
          write_prompt (lit "Enter candidate application text: ") stdout in
        match stdin1 with
        | [] => {| stdout_after := stdout; unread := []; world_after := w;
                   how_ended := EndOfInput |}
        | application_text :: stdin2 =>
            match strip application_text with
            | [] =>
                terminal_loop stdin2
                  (print (0x26A0%N :: 0xFE0F%N ::
                          lit " Please provide application text.") stdout) w
            | _ :: _ =>
                let stdout :=
                  print (newline ++ 0x1F916%N :: lit " Processing application...")
                        stdout in
                match run_candidate_screening application_text w with
                | (w', Raise e) =>
                    {| stdout_after := stdout; unread := stdin2;
                       world_after := w'; how_ended := Crashed e |}
                | (w', Ok results) =>
                    match print_results results stdout with
                    | (stdout, Some e) =>
                        {| stdout_after := stdout; unread := stdin2;
                           world_after := w'; how_ended := Crashed e |}
                    | (stdout, None) => terminal_loop stdin2 stdout w'
                    end
                end
            end
        end
      else if decide (choice = lit "2") then
        {| stdout_after := print (0x1F44B%N :: lit " Goodbye!") stdout;
           unread := stdin1; world_after := w; how_ended := Exited |}
      else
        terminal_loop stdin1
          (print (0x274C%N :: lit " Invalid choice. Please try again.") stdout) w
  end.

Definition run_terminal_version (stdin : list (list N)) (w : World)
  : terminal_run :=
  let stdout := print (0x1F916%N :: lit " HR Candidate Screening System") [] in
  let stdout := print (rule 50) stdout in
  terminal_loop stdin stdout w.

(** How a run of the loop may end, against the input and output it
    started with: it read a front part of the input and only added to
    the output; it exited on a choice that strips to "2", right after
    saying goodbye; or it ran out of input; or it was stopped by an error
    of the backend right after announcing the processing. *)
Definition ends_well (stdin stdout : list (list N)) (run : terminal_run)
  : Prop :=
  unread run `suffix_of` stdin ∧
  stdout `prefix_of` stdout_after run ∧
  match how_ended run with
  | Exited =>
      (∃ read choice,
         stdin = read ++ choice :: unread run ∧ strip choice = lit "2") ∧
      last (stdout_after run) = Some ((0x1F44B%N :: lit " Goodbye!") ++ newline)
  | EndOfInput => unread run = []
  | Crashed e =>
      (∃ reason, e = BackendError reason) ∧
      last (stdout_after run)
        = Some ((newline ++ 0x1F916%N :: lit " Processing application...")
                ++ newline)
  end.

End Terminal.

(** ** Backend stubs *)

(** The answer of a backend that goes by the task the prompt names and
    pads its label with whitespace. *)
Definition keyword_answer (prompt : list N) : outcome :=
  Replied {| content :=
               if py_in (lit "experience level") prompt
               then lit "  Senior-level" ++ newline
               else lit "No Match " |}.

(** Never fails; its world counts the calls made. *)
Definition keyword_stub : ClassifierPort :=
  {| World := nat;
     llm := λ prompt calls, (S calls, keyword_answer prompt) |}.

(** Answers while its budget of calls lasts, then fails. *)
Definition flaky_stub : ClassifierPort :=
  {| World := nat;
     llm := λ prompt budget,
       match budget with
       | O => (O, Failed (lit "503 Service Unavailable"))
       | S budget' =>
           (budget', Replied {| content := lit " Mid-level" ++ newline |})
       end |}.

(** * Properties *)

(** ** Strings *)

Lemma starts_with_spec (p s : list N) :
  starts_with p s = true ↔ ∃ post, s = p ++ post.
Proof.
  revert s; induction p as [|a p IH]; intros [|b s]; simpl.
  - split; [by exists []|done].
  - split; [by exists (b :: s)|done].
  - split; [done|by intros [post ?]].
  - rewrite andb_true_iff, N.eqb_eq, IH. split.
    + intros [-> [post ->]]. by exists post.
    + intros [post [= -> ->]]. eauto.
Qed.

Lemma py_in_spec (needle hay : list N) :
  py_in needle hay = true ↔ substring_of needle hay.
Proof.
  unfold substring_of. induction hay as [|c hay IH]; simpl.
  - rewrite orb_false_r, starts_with_spec. split.
    + intros [post Hp]. by exists [], post.
    + intros ([|? pre] & post & Hp); [by exists post|done].
  - rewrite orb_true_iff, starts_with_spec, IH. split.
    + intros [[post Hp]|(pre & post & ->)].
      * by exists [], post.
      * by exists (c :: pre), post.
    + intros ([|c' pre] & post & Hp).
      * left. by exists post.
      * right. injection Hp as -> ->. by exists pre, post.
Qed.

Lemma py_in_false_spec (needle hay : list N) :
  py_in needle hay = false ↔ ¬ substring_of needle hay.
Proof. rewrite <- py_in_spec. by destruct (py_in needle hay). Qed.

Lemma lstrip_decompose (s : list N) :
  ∃ pre, s = pre ++ lstrip s ∧ all_space pre ∧
         ∀ c, head (lstrip s) = Some c → isspace c = false.
Proof.
  induction s as [|c s (pre & Hs & Hpre & Hhd)]; simpl.
  - exists []. split_and!; [done|constructor|done].
  - destruct (isspace c) eqn:Hc.
    + exists (c :: pre). split_and!; [by rewrite Hs at 1|by constructor|done].
    + exists []. split_and!; [done|constructor|].
      intros c' [= <-]. done.
Qed.

Lemma rstrip_decompose (s : list N) :
  ∃ post, s = rstrip s ++ post ∧ all_space post ∧
          ∀ c, last (rstrip s) = Some c → isspace c = false.
Proof.
  unfold rstrip.
  destruct (lstrip_decompose (reverse s)) as (pre & Hs & Hpre & Hhd).
  exists (reverse pre). split_and!.
  - rewrite <- reverse_app, <- Hs. by rewrite reverse_involutive.
  - by apply Forall_reverse.
  - intros c. rewrite last_reverse. apply Hhd.
Qed.

Lemma strip_decompose (s : list N) :
  ∃ pre post, s = pre ++ strip s ++ post ∧
              all_space pre ∧ all_space post ∧ trimmed (strip s).
Proof.
  unfold strip.
  destruct (lstrip_decompose s) as (pre & Hs & Hpre & Hhd).
  destruct (rstrip_decompose (lstrip s)) as (post & Ht & Hpost & Hlast).
  exists pre, post. split_and!; [by rewrite <- Ht| done | done |].
  split; [|done].
  intros c Hc. apply Hhd. rewrite Ht.
  destruct (rstrip (lstrip s)); [done|]. exact Hc.
Qed.

Lemma lstrip_trimmed (s : list N) :
  (∀ c, head s = Some c → isspace c = false) → lstrip s = s.
Proof.
  destruct s as [|c s]; [done|]. simpl. intros Hc. by rewrite (Hc c).
Qed.

(** Stripping what is already stripped changes nothing. *)
Lemma strip_trimmed (s : list N) : trimmed s → strip s = s.
Proof.
  intros [Hhd Hlast]. unfold strip, rstrip.
  rewrite (lstrip_trimmed s Hhd), lstrip_trimmed.
  - apply reverse_involutive.
  - intros c. rewrite head_reverse. apply Hlast.
Qed.

(** ** The router *)

Lemma getitem_Some (d : gmap string (list N)) (k : string) (v : list N) :
  d !! k = Some v → getitem d k = Ok v.
Proof. unfold getitem. by intros ->. Qed.

Lemma route_application_unfold (state : gmap string (list N))
    (skill_match experience_level : list N) :
  state !! "skill_match" = Some skill_match →
  state !! "experience_level" = Some experience_level →
  route_application state = Ok (route_of skill_match experience_level).
Proof.
  intros Hs He. unfold route_application, route_of.
  rewrite (getitem_Some _ _ _ Hs), (getitem_Some _ _ _ He).
  by repeat case_match.
Qed.

(** C2. On every state that holds a skill match and an experience level,
    the router returns, without raising, exactly one of the three node
    names, by the fixed priority: "Match" occurs in the skill match, then
    schedule the interview; otherwise "Senior-level" occurs in the
    experience level, then escalate; otherwise reject. *)
Theorem route_application_total (state : gmap string (list N))
    (skill_match experience_level : list N) :
  state !! "skill_match" = Some skill_match →
  state !! "experience_level" = Some experience_level →
  (substring_of (lit "Match") skill_match ∧
   route_application state = Ok "schedule_hr_interview") ∨
  (¬ substring_of (lit "Match") skill_match ∧
   substring_of (lit "Senior-level") experience_level ∧
   route_application state = Ok "escalate_to_recruiter") ∨
  (¬ substring_of (lit "Match") skill_match ∧
   ¬ substring_of (lit "Senior-level") experience_level ∧
   route_application state = Ok "reject_application").
Proof.
  intros Hs He. rewrite (route_application_unfold _ _ _ Hs He).
  unfold route_of.
  destruct (py_in (lit "Match") skill_match) eqn:Hm.
  { left. split; [by apply py_in_spec|done]. }
  right. apply py_in_false_spec in Hm.
  destruct (py_in (lit "Senior-level") experience_level) eqn:Hl.
  - left. split_and!; [done|by apply py_in_spec|done].
  - right. split_and!; [done|by apply py_in_false_spec|done].
Qed.

Lemma route_application_total_witness :
  let state : gmap string (list N) :=
    {[ "application" := lit "Ten years of COBOL";
       "experience_level" := lit "Senior-level";
       "skill_match" := lit "Unsure" ]} in
  state !! "skill_match" = Some (lit "Unsure") ∧
  state !! "experience_level" = Some (lit "Senior-level") ∧
  route_application state = Ok "escalate_to_recruiter".
Proof.
  intros state.
  split; [reflexivity|]. split; [reflexivity|].
  destruct (route_application_total state (lit "Unsure") (lit "Senior-level")
              eq_refl eq_refl) as [[_ Hr]|[(_ & _ & Hr)|(_ & _ & Hr)]];
    first [exact Hr | vm_compute in Hr; discriminate Hr].
Defined.

(** C3. As written, the router sends a "No Match" entry-level candidate
    to the interview, because "Match" occurs inside "No Match". *)
Theorem route_no_match_entry_level :
  substring_of (lit "Match") (lit "No Match") ∧
  route_application
    {[ "skill_match" := lit "No Match";
       "experience_level" := lit "Entry-level" ]}
  = Ok "schedule_hr_interview".
Proof.
  split; [|reflexivity].
  by exists (lit "No "), [].
Qed.

(** C10. The status colour agrees with the router: on the same skill
    match and experience level, "success" goes with the interview,
    "warning" with the escalation and "error" with the rejection, each
    exactly. *)
Theorem get_status_color_agrees (state : gmap string (list N))
    (skill_match experience_level : list N) :
  state !! "skill_match" = Some skill_match →
  state !! "experience_level" = Some experience_level →
  (get_status_color skill_match experience_level = "success" ↔
   route_application state = Ok "schedule_hr_interview") ∧
  (get_status_color skill_match experience_level = "warning" ↔
   route_application state = Ok "escalate_to_recruiter") ∧
  (get_status_color skill_match experience_level = "error" ↔
   route_application state = Ok "reject_application").
Proof.
  intros Hs He. rewrite (route_application_unfold _ _ _ Hs He).
  unfold get_status_color, route_of.
  destruct (py_in (lit "Match") skill_match);
    [|destruct (py_in (lit "Senior-level") experience_level)];
    split_and!; split; intros Heq; first [done | discriminate Heq].
Qed.

Lemma get_status_color_agrees_witness :
  let state : gmap string (list N) :=
    {[ "skill_match" := lit "No";
       "experience_level" := lit "Mid-level" ]} in
  state !! "skill_match" = Some (lit "No") ∧
  state !! "experience_level" = Some (lit "Mid-level") ∧
  (get_status_color (lit "No") (lit "Mid-level") = "error" ↔
   route_application state = Ok "reject_application").
Proof.
  intros state.
  split; [reflexivity|]. split; [reflexivity|].
  exact (proj2 (proj2 (get_status_color_agrees state (lit "No") (lit "Mid-level")
                         eq_refl eq_refl))).
Defined.

(** ** The nodes and the run of the workflow *)

Section Run.
Context `{ClassifierPort}.

Lemma chain_invoke_application (text application : list N) (w : World) :
  chain_invoke [Text text; Field "application"]
    {[ "application" := application ]} w
  = llm_invoke (prompt_text [Text text; Field "application"] application) w.
Proof.
  unfold chain_invoke, prompt_text, bind, lift. simpl.
  unfold getitem. by rewrite lookup_singleton_eq.
Qed.

Lemma categorize_experience_unfold (state : gmap string (list N))
    (application : list N) (w : World) :
  state !! "application" = Some application →
  categorize_experience state w =
    match llm (prompt_text experience_prompt application) w with
    | (w', Replied message) =>
        (w', Ok {[ "experience_level" := strip (content message) ]})
    | (w', Failed reason) => (w', Raise (BackendError reason))
    end.
Proof.
  intros Ha. unfold categorize_experience, bind at 1, lift.
  rewrite (getitem_Some _ _ _ Ha). unfold bind, experience_prompt.
  rewrite chain_invoke_application. unfold llm_invoke.
  by destruct (llm _ w) as [w' [message|reason]].
Qed.

Lemma assess_skillset_unfold (state : gmap string (list N))
    (application : list N) (w : World) :
  state !! "application" = Some application →
  assess_skillset state w =
    match llm (prompt_text skillset_prompt application) w with
    | (w', Replied message) =>
        (w', Ok {[ "skill_match" := strip (content message) ]})
    | (w', Failed reason) => (w', Raise (BackendError reason))
    end.
Proof.
  intros Ha. unfold assess_skillset, bind at 1, lift.
  rewrite (getitem_Some _ _ _ Ha). unfold bind, skillset_prompt.
  rewrite chain_invoke_application. unfold llm_invoke.
  by destruct (llm _ w) as [w' [message|reason]].
Qed.

Lemma pregel_loop_step (limit : nat) (g : StateGraph) (node : string)
    (action : gmap string (list N) → M (gmap string (list N)))
    (state : gmap string (list N)) (w : World) :
  node ≠ END →
  nodes g !! node = Some action →
  pregel_loop (S limit) g node state w =
    match action state w with
    | (w', Raise e) => (w', ([], Some e))
    | (w', Ok update) =>
        match next_node g node (update ∪ state) with
        | Raise e => (w', ([], Some e))
        | Ok target =>
            let '(w'', (values, err)) :=
              pregel_loop limit g target (update ∪ state) w' in
            (w'', (update ∪ state :: values, err))
        end
    end.
Proof.
  intros Hne Hnode. cbn [pregel_loop].
  rewrite decide_False by done. unfold M in *. by rewrite Hnode.
Qed.

Ltac not_end := unfold END; intros ?; discriminate.

Lemma pregel_loop_end (limit : nat) (g : StateGraph)
    (state : gmap string (list N)) (w : World) :
  pregel_loop limit g END state w = (w, ([], None)).
Proof. by destruct limit. Qed.

Lemma workflow_nodes :
  nodes workflow !! "categorize_experience" = Some categorize_experience ∧
  nodes workflow !! "assess_skillset" = Some assess_skillset ∧
  nodes workflow !! "schedule_hr_interview" = Some schedule_hr_interview ∧
  nodes workflow !! "escalate_to_recruiter" = Some escalate_to_recruiter ∧
  nodes workflow !! "reject_application" = Some reject_application.
Proof. split_and!; reflexivity. Qed.

Lemma workflow_next (state : gmap string (list N)) :
  next_node workflow START state = Ok "categorize_experience" ∧
  next_node workflow "categorize_experience" state = Ok "assess_skillset" ∧
  next_node workflow "assess_skillset" state = route_application state ∧
  next_node workflow "schedule_hr_interview" state = Ok END ∧
  next_node workflow "escalate_to_recruiter" state = Ok END ∧
  next_node workflow "reject_application" state = Ok END.
Proof. split_and!; reflexivity. Qed.

Lemma route_of_cases (skill_match experience_level : list N) :
  route_of skill_match experience_level = "schedule_hr_interview" ∨
  route_of skill_match experience_level = "escalate_to_recruiter" ∨
  route_of skill_match experience_level = "reject_application".
Proof. unfold route_of. repeat case_match; auto. Qed.

Lemma pregel_loop_terminal (limit : nat) (route : string)
    (state : gmap string (list N)) (w : World) :
  route = "schedule_hr_interview" ∨ route = "escalate_to_recruiter" ∨
  route = "reject_application" →
  pregel_loop (S limit) workflow route state w =
    (w, ([ {[ "response" := response_of route ]} ∪ state ], None)).
Proof.
  destruct workflow_nodes as (_ & _ & Hs & He & Hr).
  intros [-> | [-> | ->]].
  - erewrite pregel_loop_step; [|not_end|exact Hs].
    unfold schedule_hr_interview, ret.
    rewrite (proj1 (proj2 (proj2 (proj2 (workflow_next _))))).
    by rewrite pregel_loop_end.
  - erewrite pregel_loop_step; [|not_end|exact He].
    unfold escalate_to_recruiter, ret.
    rewrite (proj1 (proj2 (proj2 (proj2 (proj2 (workflow_next _)))))).
    by rewrite pregel_loop_end.
  - erewrite pregel_loop_step; [|not_end|exact Hr].
    unfold reject_application, ret.
    rewrite (proj2 (proj2 (proj2 (proj2 (proj2 (workflow_next _)))))).
    by rewrite pregel_loop_end.
Qed.

Lemma pregel_loop_assess (limit : nat) (state : gmap string (list N))
    (application experience_level : list N) (w : World) :
  state !! "application" = Some application →
  state !! "experience_level" = Some experience_level →
  pregel_loop (S (S limit)) workflow "assess_skillset" state w =
    match llm (prompt_text skillset_prompt application) w with
    | (w', Failed reason) => (w', ([], Some (BackendError reason)))
    | (w', Replied message) =>
        let skill_match := strip (content message) in
        let assessed := {[ "skill_match" := skill_match ]} ∪ state in
        (w', ([ assessed;
                {[ "response" :=
                     response_of (route_of skill_match experience_level) ]}
                ∪ assessed ], None))
    end.
Proof.
  intros Ha He.
  destruct workflow_nodes as (_ & Hn & _).
  erewrite pregel_loop_step; [|not_end|exact Hn].
  rewrite (assess_skillset_unfold _ _ _ Ha).
  destruct (llm _ w) as [w' [message|reason]]; [|done].
  rewrite (proj1 (proj2 (proj2 (workflow_next _)))).
  rewrite (route_application_unfold _ (strip (content message)) experience_level).
  - rewrite pregel_loop_terminal by apply route_of_cases. done.
  - apply lookup_union_Some_l, lookup_singleton_eq.
  - rewrite lookup_union_r; [done|]. by apply lookup_singleton_ne.
Qed.

(** The values streamed by a run and the error that ended it, if any. *)
Lemma stream_app (application : list N) (w : World) :
  stream app {[ "application" := application ]} w =
    let submitted : gmap string (list N) := {[ "application" := application ]} in
    match llm (prompt_text experience_prompt application) w with
    | (w1, Failed reason) => (w1, ([submitted], Some (BackendError reason)))
    | (w1, Replied m1) =>
        let experience_level := strip (content m1) in
        let classified := {[ "experience_level" := experience_level ]} ∪ submitted in
        match llm (prompt_text skillset_prompt application) w1 with
        | (w2, Failed reason) =>
            (w2, ([submitted; classified], Some (BackendError reason)))
        | (w2, Replied m2) =>
            let skill_match := strip (content m2) in
            let assessed := {[ "skill_match" := skill_match ]} ∪ classified in
            (w2, ([ submitted; classified; assessed;
                    {[ "response" :=
                         response_of (route_of skill_match experience_level) ]}
                    ∪ assessed ], None))
        end
    end.
Proof.
  unfold stream, app, recursion_limit.
  rewrite (proj1 (workflow_next _)).
  destruct workflow_nodes as (Hn & _).
  erewrite pregel_loop_step; [|not_end|exact Hn].
  rewrite (categorize_experience_unfold _ application) by apply lookup_singleton_eq.
  destruct (llm _ w) as [w1 [m1|reason]]; [|done].
  rewrite (proj1 (proj2 (workflow_next _))).
  rewrite (pregel_loop_assess _ _ application (strip (content m1))).
  - by destruct (llm _ w1) as [w2 [m2|reason]].
  - rewrite lookup_union_r; [apply lookup_singleton_eq|]. by apply lookup_singleton_ne.
  - apply lookup_union_Some_l, lookup_singleton_eq.
Qed.

Lemma run_candidate_screening_unfold (application : list N) (w : World) :
  run_candidate_screening application w =
    match llm (prompt_text experience_prompt application) w with
    | (w1, Failed reason) => (w1, Raise (BackendError reason))
    | (w1, Replied m1) =>
        match llm (prompt_text skillset_prompt application) w1 with
        | (w2, Failed reason) => (w2, Raise (BackendError reason))
        | (w2, Replied m2) =>
            (w2, Ok {[ "experience_level" := strip (content m1);
                       "skill_match" := strip (content m2);
                       "response" :=
                         response_of (route_of (strip (content m2))
                                               (strip (content m1))) ]})
        end
    end.
Proof.
  unfold run_candidate_screening, bind at 1, invoke.
  rewrite stream_app. cbv zeta.
  destruct (llm _ w) as [w1 [m1|reason]]; [|done].
  destruct (llm _ w1) as [w2 [m2|reason]]; [|done].
  unfold bind, lift, ret, getitem, last, default, id.
  rewrite !lookup_union, !lookup_singleton. done.
Qed.

Lemma response_of_cases (route : string) :
  response_of route ∈ [shortlist_message; forwarding_message; decline_message].
Proof. unfold response_of. repeat case_decide; set_solver. Qed.

Lemma messages_distinct :
  NoDup [shortlist_message; forwarding_message; decline_message].
Proof.
  repeat (apply NoDup_cons; split); try apply NoDup_nil_2;
    rewrite ?elem_of_cons, elem_of_nil; intros Heq; destruct_or!;
    first [done | discriminate Heq].
Qed.

(** C1. A run of the entry point ends in one of two ways: it raises the
    backend's error, or it returns a record with exactly the keys
    experience_level, skill_match and response, whose response is one of
    the three fixed messages. The three messages differ from each
    other. *)
Theorem run_candidate_screening_outcomes (application : list N) (w : World) :
  NoDup [shortlist_message; forwarding_message; decline_message] ∧
  ((∃ w' reason,
      run_candidate_screening application w = (w', Raise (BackendError reason))) ∨
   (∃ w' experience_level skill_match response,
      run_candidate_screening application w =
        (w', Ok {[ "experience_level" := experience_level;
                   "skill_match" := skill_match;
                   "response" := response ]}) ∧
      response ∈ [shortlist_message; forwarding_message; decline_message])).
Proof.
  split; [apply messages_distinct|].
  rewrite run_candidate_screening_unfold.
  destruct (llm _ w) as [w1 [m1|reason]]; [|left; eauto].
  destruct (llm _ w1) as [w2 [m2|reason]]; [|left; eauto].
  right. eexists _, _, _, _. split; [done|apply response_of_cases].
Qed.

(** C4. Each terminal action returns its own fixed message as the
    response, and nothing else, whatever state it is given; it neither
    raises nor calls the backend. *)
Theorem terminal_actions_constant (state : gmap string (list N)) (w : World) :
  schedule_hr_interview state w = (w, Ok {[ "response" := shortlist_message ]}) ∧
  escalate_to_recruiter state w = (w, Ok {[ "response" := forwarding_message ]}) ∧
  reject_application state w = (w, Ok {[ "response" := decline_message ]}).
Proof. done. Qed.

(** C5. Whatever text the backend replies with, the experience
    classifier stores it stripped as experience_level and the skill
    matcher stores it stripped as skill_match; stripping removes a run of
    whitespace at each end, as long as possible, and changes nothing
    else. *)
Theorem classifier_output_stripped (state : gmap string (list N))
    (application raw : list N) (w w' : World) :
  state !! "application" = Some application →
  (llm (prompt_text experience_prompt application) w
     = (w', Replied {| content := raw |}) →
   categorize_experience state w
     = (w', Ok {[ "experience_level" := strip raw ]})) ∧
  (llm (prompt_text skillset_prompt application) w
     = (w', Replied {| content := raw |}) →
   assess_skillset state w = (w', Ok {[ "skill_match" := strip raw ]})) ∧
  (∃ pre post, raw = pre ++ strip raw ++ post ∧
               all_space pre ∧ all_space post ∧ trimmed (strip raw)).
Proof.
  intros Ha. split_and!.
  - intros Hllm. by rewrite (categorize_experience_unfold _ _ _ Ha), Hllm.
  - intros Hllm. by rewrite (assess_skillset_unfold _ _ _ Ha), Hllm.
  - apply strip_decompose.
Qed.

(** C8. When the backend fails in the experience stage, or replies there
    and fails in the skill stage, the entry point raises that error and
    returns no record; the backend is not called again after the
    failure. *)
Theorem backend_error_propagates (application reason : list N) (w w' : World) :
  llm (prompt_text experience_prompt application) w = (w', Failed reason) ∨
  (∃ w1 m1,
     llm (prompt_text experience_prompt application) w = (w1, Replied m1) ∧
     llm (prompt_text skillset_prompt application) w1 = (w', Failed reason)) →
  run_candidate_screening application w = (w', Raise (BackendError reason)) ∧
  (stream app {[ "application" := application ]} w).2.2
    = Some (BackendError reason).
Proof.
  rewrite run_candidate_screening_unfold, stream_app. cbv zeta.
  intros [Hllm|(w1 & m1 & Hllm1 & Hllm2)].
  - by rewrite Hllm.
  - by rewrite Hllm1, Hllm2.
Qed.

Lemma run_candidate_screening_answer (answer : list N → outcome)
    (application : list N) (w : World) :
  (∀ prompt w0, (llm prompt w0).2 = answer prompt) →
  (run_candidate_screening application w).2 =
    match answer (prompt_text experience_prompt application) with
    | Failed reason => Raise (BackendError reason)
    | Replied m1 =>
        match answer (prompt_text skillset_prompt application) with
        | Failed reason => Raise (BackendError reason)
        | Replied m2 =>
            Ok {[ "experience_level" := strip (content m1);
                  "skill_match" := strip (content m2);
                  "response" :=
                    response_of (route_of (strip (content m2))
                                          (strip (content m1))) ]}
        end
    end.
Proof.
  intros Hdet. rewrite run_candidate_screening_unfold.
  rewrite <- (Hdet _ w).
  destruct (llm _ w) as [w1 [m1|reason]]; simpl; [|done].
  rewrite <- (Hdet _ w1).
  by destruct (llm _ w1) as [w2 [m2|reason]].
Qed.

(** C7. With a backend whose answer depends on the prompt alone, two
    runs on the same application return the same result, whatever the
    backend's hidden state at each run; in particular a second run
    started where the first one ended. *)
Theorem run_candidate_screening_deterministic (answer : list N → outcome)
    (application : list N) (w1 w2 : World) :
  (∀ prompt w, (llm prompt w).2 = answer prompt) →
  (run_candidate_screening application w1).2
    = (run_candidate_screening application w2).2 ∧
  (run_candidate_screening application
     (run_candidate_screening application w1).1).2
    = (run_candidate_screening application w1).2.
Proof.
  intros Hdet.
  by rewrite !(run_candidate_screening_answer answer _ _ Hdet).
Qed.

(** ** The order in which the record is filled *)

Lemma filled_step (application experience_level skill_match response : list N)
    (i : nat) (before after : gmap string (list N)) :
  filled application experience_level skill_match response !! i = Some before →
  filled application experience_level skill_match response !! S i = Some after →
  ∃ field value, field_order !! S i = Some field ∧
                 before !! field = None ∧ after = <[field := value]> before.
Proof.
  destruct i as [|[|[|i]]]; simpl; intros Hbefore Hafter;
    [| | |by rewrite lookup_nil in Hafter];
    injection Hbefore as <-; injection Hafter as <-;
    eexists _, _; (split_and!; [reflexivity| |reflexivity]);
    by rewrite ?lookup_insert_ne, lookup_singleton_ne.
Qed.

Lemma filled_dom (application experience_level skill_match response : list N)
    (i : nat) (state : gmap string (list N)) :
  filled application experience_level skill_match response !! i = Some state →
  dom state = list_to_set (take (S i) field_order).
Proof.
  destruct i as [|[|[|[|i]]]]; simpl; intros Hstate;
    [| | | |by rewrite lookup_nil in Hstate]; injection Hstate as <-;
    rewrite ?dom_insert_L, dom_singleton_L; set_solver.
Qed.

Lemma chain_subseteq (values : list (gmap string (list N))) :
  (∀ i before after,
     values !! i = Some before → values !! S i = Some after → before ⊆ after) →
  ∀ i j before after,
    i ≤ j → values !! i = Some before → values !! j = Some after →
    before ⊆ after.
Proof.
  intros Hstep i j before after Hle. revert after.
  induction Hle as [|j Hle IH]; intros after Hi Hj.
  - by simplify_eq.
  - destruct (lookup_lt_is_Some_2 values j) as [middle Hmiddle].
    { apply lookup_lt_Some in Hj. lia. }
    transitivity middle; [by apply IH|by eapply Hstep].
Qed.

Lemma stream_app_filled (application : list N) (w : World) :
  ∃ experience_level skill_match response,
    (stream app {[ "application" := application ]} w).2.1
      `prefix_of` filled application experience_level skill_match response ∧
    ((stream app {[ "application" := application ]} w).2.2 = None →
     (stream app {[ "application" := application ]} w).2.1
       = filled application experience_level skill_match response).
Proof.
  rewrite stream_app. unfold filled. cbv zeta.
  destruct (llm _ w) as [w1 [m1|reason]]; simpl.
  - destruct (llm _ w1) as [w2 [m2|reason]]; simpl;
      rewrite <- ?insert_union_singleton_l.
    + eexists _, _, _. split; [reflexivity|done].
    + eexists _, [], []. split; [by eexists [_; _]|done].
  - exists [], [], []. split; [by eexists [_; _; _]|done].
Qed.

(** C6. Through every run, failed or not, the state starts as the
    application alone and each stage adds exactly the next field of the
    order application, experience_level, skill_match, response, with a
    value of its own and every other field as it was; so a field, once
    set, keeps its value in all later states. A run that does not raise
    goes through all four. *)
Theorem fields_filled_in_order (application : list N) (w : World) :
  let run := stream app {[ "application" := application ]} w in
  run.2.1 !! 0 = Some {[ "application" := application ]} ∧
  (∀ i state, run.2.1 !! i = Some state →
     dom state = list_to_set (take (S i) field_order)) ∧
  (∀ i before after,
     run.2.1 !! i = Some before → run.2.1 !! S i = Some after →
     ∃ field value, field_order !! S i = Some field ∧
                    before !! field = None ∧ after = <[field := value]> before) ∧
  (∀ i j before after,
     i ≤ j → run.2.1 !! i = Some before → run.2.1 !! j = Some after →
     before ⊆ after) ∧
  (run.2.2 = None → length run.2.1 = 4).
Proof.
  intros run. subst run.
  destruct (stream_app_filled application w)
    as (experience_level & skill_match & response & Hprefix & Hfull).
  assert (Hstep : ∀ i before after,
    (stream app {[ "application" := application ]} w).2.1 !! i = Some before →
    (stream app {[ "application" := application ]} w).2.1 !! S i = Some after →
    ∃ field value, field_order !! S i = Some field ∧
                   before !! field = None ∧ after = <[field := value]> before).
  { intros i before after Hi HSi.
    eapply filled_step; by eapply prefix_lookup_Some. }
  split_and!.
  - rewrite stream_app. cbv zeta.
    destruct (llm _ w) as [w1 [m1|reason]]; [|done].
    by destruct (llm _ w1) as [w2 [m2|reason]].
  - intros i state Hi. eapply filled_dom. by eapply prefix_lookup_Some.
  - exact Hstep.
  - apply chain_subseteq. intros i before after Hi HSi.
    destruct (Hstep i before after Hi HSi) as (field & value & _ & Hnone & ->).
    by apply insert_subseteq.
  - intros Hok. by rewrite (Hfull Hok).
Qed.

(** ** The screening history *)

Lemma py_list_insert_front {A : Type} (x : A) (l : list A) :
  py_list_insert 0 x l = x :: l.
Proof.
  unfold py_list_insert. simpl.
  by rewrite Z.min_l by lia.
Qed.

Lemma session_app (events events' : list event)
    (history : list (gmap string (list N))) (w : World) :
  session (events ++ events') history w =
    session events' (session events history w).2 (session events history w).1.
Proof.
  revert history w. induction events as [|e events IH]; intros history w; simpl.
  - done.
  - destruct (handle e history w) as [w' history']. apply IH.
Qed.

Lemma session_completed (events : list event)
    (history : list (gmap string (list N))) (w : World) :
  ClearHistory ∉ events →
  (session events history w).2 = reverse (completed events w) ++ history.
Proof.
  revert history w.
  induction events as [|[timestamp application_text|] events IH];
    intros history w Hclear; simpl.
  - done.
  - apply not_elem_of_cons in Hclear as [_ Hclear]. unfold on_screen.
    destruct (strip application_text) as [|c rest]; [by apply IH|].
    destruct (run_candidate_screening application_text w) as [w' [results|e]];
      [|by apply IH].
    rewrite py_list_insert_front, IH by done.
    by rewrite reverse_cons, <- app_assoc.
  - by apply not_elem_of_cons in Hclear as [? _].
Qed.

(** C9. Over any sequence of screenings, the history lists the completed
    ones newest first, in front of what it held before, so the latest
    completed screening heads the entries shown; pressing "Clear
    History" after any sequence of events leaves zero entries. *)
Theorem history_most_recent_first (events : list event)
    (history : list (gmap string (list N))) (w : World) :
  ClearHistory ∉ events →
  (session events history w).2 = reverse (completed events w) ++ history ∧
  (∀ latest, last (completed events w) = Some latest →
     head (shown_history (session events history w).2) = Some latest) ∧
  (∀ events', (session (events' ++ [ClearHistory]) history w).2 = [] ∧
              length (session (events' ++ [ClearHistory]) history w).2 = 0).
Proof.
  intros Hclear. split_and!.
  - by apply session_completed.
  - intros latest Hlast. rewrite session_completed by done.
    apply last_Some in Hlast as [older ->].
    by rewrite reverse_snoc.
  - intros events'. by rewrite session_app.
Qed.

End Run.

(** ** The properties at the stubs *)

Example strip_padded_label :
  strip (lit "  Senior-level " ++ newline) = lit "Senior-level".
Proof. reflexivity. Qed.

Example route_match_senior :
  route_application
    {[ "skill_match" := lit "Match"; "experience_level" := lit "Senior-level" ]}
  = Ok "schedule_hr_interview".
Proof. reflexivity. Qed.

Example route_unsure_mid_level :
  route_application
    {[ "skill_match" := lit "match"; "experience_level" := lit "Mid-level" ]}
  = Ok "reject_application".
Proof. reflexivity. Qed.

Example route_missing_skill_match :
  route_application {[ "experience_level" := lit "Senior-level" ]}
  = Raise (KeyError "skill_match").
Proof. reflexivity. Qed.

Example py_list_insert_clamped :
  py_list_insert (-1) 9 [1; 2; 3] = [1; 2; 9; 3] ∧
  py_list_insert 7 9 [1; 2; 3] = [1; 2; 3; 9] ∧
  py_list_insert (-7) 9 [1; 2; 3] = [9; 1; 2; 3].
Proof. done. Qed.

Example keyword_stub_run :
  @run_candidate_screening keyword_stub (lit "Architect, 12 years of Java") 0%nat
  = (2%nat, Ok {[ "experience_level" := lit "Senior-level";
                  "skill_match" := lit "No Match";
                  "response" := shortlist_message ]}).
Proof. vm_compute. reflexivity. Qed.

Example flaky_stub_run :
  @run_candidate_screening flaky_stub (lit "Three years of Flask") 5%nat
  = (3%nat, Ok {[ "experience_level" := lit "Mid-level";
                  "skill_match" := lit "Mid-level";
                  "response" := decline_message ]}).
Proof. vm_compute. reflexivity. Qed.

Lemma classifier_output_stripped_witness :
  let application := lit "Three years of Flask" in
  let state : gmap string (list N) := {[ "application" := application ]} in
  let raw := lit " Mid-level" ++ newline in
  state !! "application" = Some application ∧
  @llm flaky_stub (prompt_text experience_prompt application) 2%nat
    = (1%nat, Replied {| content := raw |}) ∧
  @llm flaky_stub (prompt_text skillset_prompt application) 2%nat
    = (1%nat, Replied {| content := raw |}) ∧
  @categorize_experience flaky_stub state 2%nat
    = (1%nat, Ok {[ "experience_level" := lit "Mid-level" ]}) ∧
  @assess_skillset flaky_stub state 2%nat
    = (1%nat, Ok {[ "skill_match" := lit "Mid-level" ]}).
Proof.
  intros application state raw.
  destruct (@classifier_output_stripped flaky_stub state application raw
              2%nat 1%nat eq_refl) as (Hexperience & Hskill & _).
  split; [reflexivity|]. split; [reflexivity|]. split; [reflexivity|].
  split; [exact (Hexperience eq_refl)|exact (Hskill eq_refl)].
Defined.

Lemma run_candidate_screening_deterministic_witness :
  let application := lit "Python and Django, two years" in
  (∀ prompt w, (@llm keyword_stub prompt w).2 = keyword_answer prompt) ∧
  (@run_candidate_screening keyword_stub application 0%nat).2
    = (@run_candidate_screening keyword_stub application 7%nat).2.
Proof.
  intros application. split; [reflexivity|].
  exact (proj1 (@run_candidate_screening_deterministic keyword_stub
                  keyword_answer application 0%nat 7%nat (λ _ _, eq_refl))).
Defined.

Lemma backend_error_propagates_witness :
  let application := lit "Three years of Flask" in
  let reason := lit "503 Service Unavailable" in
  let reply := {| content := lit " Mid-level" ++ newline |} in
  (@llm flaky_stub (prompt_text experience_prompt application) 0%nat
     = (0%nat, Failed reason) ∧
   @run_candidate_screening flaky_stub application 0%nat
     = (0%nat, Raise (BackendError reason))) ∧
  (@llm flaky_stub (prompt_text experience_prompt application) 1%nat
     = (0%nat, Replied reply) ∧
   @llm flaky_stub (prompt_text skillset_prompt application) 0%nat
     = (0%nat, Failed reason) ∧
   @run_candidate_screening flaky_stub application 1%nat
     = (0%nat, Raise (BackendError reason))).
Proof.
  intros application reason reply. split.
  - split; [reflexivity|].
    exact (proj1 (@backend_error_propagates flaky_stub application reason
                    0%nat 0%nat (or_introl eq_refl))).
  - split; [reflexivity|]. split; [reflexivity|].
    exact (proj1 (@backend_error_propagates flaky_stub application reason
                    1%nat 0%nat
                    (or_intror (ex_intro _ 0%nat
                       (ex_intro _ reply (conj eq_refl eq_refl)))))).
Defined.

Lemma fields_filled_in_order_witness :
  let run := @stream keyword_stub app
               {[ "application" := lit "Architect, 12 years of Java" ]} 0%nat in
  ∃ before after,
    (0 ≤ 3)%nat ∧ run.2.1 !! 0%nat = Some before ∧
    run.2.1 !! 3%nat = Some after ∧ before ⊆ after.
Proof.
  intros run.
  eexists _, _. split; [lia|]. split; [reflexivity|]. split; [reflexivity|].
  refine (proj1 (proj2 (proj2 (proj2
            (@fields_filled_in_order keyword_stub
               (lit "Architect, 12 years of Java") 0%nat))))
          0%nat 3%nat _ _ _ _ _); [lia|reflexivity|reflexivity].
Defined.

Lemma history_most_recent_first_witness :
  let events :=
    [ ScreenApplication (lit "2025-01-07 09:30:00") (lit "Architect, 12 years of Java");
      ScreenApplication (lit "2025-01-07 09:31:10") (lit "   ");
      ScreenApplication (lit "2025-01-07 09:32:45") (lit "Python and Django, two years") ] in
  (ClearHistory ∉ events) ∧
  (@session keyword_stub events [] 0%nat).2
    = reverse (@completed keyword_stub events 0%nat) ++ [].
Proof.
  intros events.
  assert (Hclear : ClearHistory ∉ events).
  { intros Hin. repeat (apply elem_of_cons in Hin as [Hin|Hin]; [discriminate Hin|]).
    by apply elem_of_nil in Hin. }
  split; [exact Hclear|].
  exact (proj1 (@history_most_recent_first keyword_stub events [] 0%nat Hclear)).
Defined.

(** * Further properties *)

(** ** Whitespace and the keywords of the router *)

Lemma lstrip_all_space (s : list N) : all_space s → lstrip s = [].
Proof.
  induction 1 as [|c s Hc _ IH]; [done|]. simpl. by rewrite Hc.
Qed.

Lemma strip_nil_iff (s : list N) : strip s = [] ↔ all_space s.
Proof.
  split.
  - intros Hnil. destruct (strip_decompose s) as (pre & post & Hs & Hpre & Hpost & _).
    rewrite Hs, Hnil. apply Forall_app. split; [done|by apply Forall_app].
  - intros Hs. unfold strip. by rewrite (lstrip_all_space _ Hs).
Qed.

Lemma substring_of_lstrip (needle s : list N) (c : N) :
  head needle = Some c → isspace c = false →
  substring_of needle s → substring_of needle (lstrip s).
Proof.
  intros Hhead Hc. induction s as [|d s IH]; [done|].
  simpl. destruct (isspace d) eqn:Hd; [|done].
  intros ([|d' pre] & post & Hs).
  - destruct needle as [|c' needle]; [done|].
    simpl in Hhead, Hs. simplify_eq. congruence.
  - simpl in Hs. apply IH. injection Hs as -> ->. by exists pre, post.
Qed.

Lemma substring_of_reverse (needle s : list N) :
  substring_of needle s → substring_of (reverse needle) (reverse s).
Proof.
  intros (pre & post & ->). exists (reverse post), (reverse pre).
  by rewrite !reverse_app, <- app_assoc.
Qed.

Lemma substring_of_rstrip (needle s : list N) (c : N) :
  last needle = Some c → isspace c = false →
  substring_of needle s → substring_of needle (rstrip s).
Proof.
  intros Hlast Hc Hs. unfold rstrip.
  rewrite <- (reverse_involutive needle). apply substring_of_reverse.
  apply (substring_of_lstrip _ _ c); [by rewrite head_reverse|done|].
  by apply substring_of_reverse.
Qed.

Lemma substring_of_strip (needle s : list N) (c d : N) :
  head needle = Some c → isspace c = false →
  last needle = Some d → isspace d = false →
  substring_of needle (strip s) ↔ substring_of needle s.
Proof.
  intros Hhead Hc Hlast Hd. split.
  - intros (pre' & post' & Hstrip).
    destruct (strip_decompose s) as (pre & post & Hs & _).
    exists (pre ++ pre'), (post' ++ post).
    rewrite Hs at 1. rewrite Hstrip. by rewrite <- !app_assoc.
  - intros Hs. unfold strip.
    apply (substring_of_rstrip _ _ d); [done..|].
    by apply (substring_of_lstrip _ _ c).
Qed.

Lemma py_in_strip (needle s : list N) (c d : N) :
  head needle = Some c → isspace c = false →
  last needle = Some d → isspace d = false →
  py_in needle (strip s) = py_in needle s.
Proof.
  intros Hhead Hc Hlast Hd.
  destruct (py_in needle s) eqn:Hin.
  - apply py_in_spec, (substring_of_strip _ _ c d); [done..|]. by apply py_in_spec.
  - apply py_in_false_spec. rewrite (substring_of_strip _ _ c d) by done.
    by apply py_in_false_spec.
Qed.

Lemma route_of_strip (skill_match experience_level : list N) :
  route_of (strip skill_match) (strip experience_level)
  = route_of skill_match experience_level.
Proof.
  unfold route_of.
  rewrite (py_in_strip (lit "Match") skill_match 77 104)%N by done.
  by rewrite (py_in_strip (lit "Senior-level") experience_level 83 108)%N by done.
Qed.

(** X1. The router raises exactly in two cases, each time the KeyError
    of the key it could not read: the state has no skill match; or the
    skill match has no "Match" in it and the state has no experience
    level. A skill match with "Match" in it is routed without the
    experience level being read. *)
Theorem route_application_raises (state : gmap string (list N)) (e : exn) :
  route_application state = Raise e ↔
  (state !! "skill_match" = None ∧ e = KeyError "skill_match") ∨
  (∃ skill_match,
     state !! "skill_match" = Some skill_match ∧
     ¬ substring_of (lit "Match") skill_match ∧
     state !! "experience_level" = None ∧ e = KeyError "experience_level").
Proof.
  unfold route_application, getitem.
  destruct (state !! "skill_match") as [skill_match|] eqn:Hs.
  - destruct (py_in (lit "Match") skill_match) eqn:Hm.
    + split; [done|]. intros [[? _]|(? & [= <-] & Hno & _)]; [done|].
      by apply py_in_false_spec in Hno; congruence.
    + apply py_in_false_spec in Hm.
      destruct (state !! "experience_level") as [experience_level|] eqn:He.
      * split; [by case_match|]. by intros [[? _]|(? & _ & _ & ? & _)].
      * split.
        -- intros [= <-]. right. by exists skill_match.
        -- by intros [[? _]|(? & _ & _ & _ & ->)].
  - split.
    + intros [= <-]. by left.
    + by intros [[_ ->]|(? & ? & _)].
Qed.

(** X2. Stripping the two labels does not change where the router
    sends a state: the route of the stripped labels is the route of the
    labels as the backend wrote them. *)
Theorem route_application_ignores_padding (skill_match experience_level : list N) :
  route_application
    {[ "skill_match" := strip skill_match;
       "experience_level" := strip experience_level ]}
  = route_application
      {[ "skill_match" := skill_match;
         "experience_level" := experience_level ]}.
Proof.
  rewrite (route_application_unfold _ (strip skill_match) (strip experience_level))
    by done.
  rewrite (route_application_unfold _ skill_match experience_level) by done.
  by rewrite route_of_strip.
Qed.

(** ** The decision of a run *)

Section Decision.
Context `{ClassifierPort}.

Lemma response_of_route_of (skill_match experience_level : list N) :
  response_of (route_of skill_match experience_level) =
    if py_in (lit "Match") skill_match then shortlist_message
    else if py_in (lit "Senior-level") experience_level then forwarding_message
    else decline_message.
Proof. unfold route_of. by repeat case_match. Qed.

Lemma run_candidate_screening_replies (application : list N)
    (w w1 w2 : World) (m1 m2 : AIMessage) :
  llm (prompt_text experience_prompt application) w = (w1, Replied m1) →
  llm (prompt_text skillset_prompt application) w1 = (w2, Replied m2) →
  run_candidate_screening application w =
    (w2, Ok {[ "experience_level" := strip (content m1);
               "skill_match" := strip (content m2);
               "response" :=
                 if py_in (lit "Match") (content m2) then shortlist_message
                 else if py_in (lit "Senior-level") (content m1)
                      then forwarding_message
                      else decline_message ]}).
Proof.
  intros H1 H2. rewrite run_candidate_screening_unfold, H1, H2.
  by rewrite route_of_strip, response_of_route_of.
Qed.

(** X3. When both calls are answered, the record returned holds the two
    answers stripped, and the response is decided by the answers as the
    backend wrote them: the shortlist message if the skill answer has
    "Match" in it; otherwise the forwarding message if the experience
    answer has "Senior-level" in it; otherwise the decline message. *)
Theorem run_candidate_screening_decision (application : list N)
    (w w1 w2 : World) (m1 m2 : AIMessage) :
  llm (prompt_text experience_prompt application) w = (w1, Replied m1) →
  llm (prompt_text skillset_prompt application) w1 = (w2, Replied m2) →
  ∃ response,
    run_candidate_screening application w =
      (w2, Ok {[ "experience_level" := strip (content m1);
                 "skill_match" := strip (content m2);
                 "response" := response ]}) ∧
    (response = shortlist_message ↔
       substring_of (lit "Match") (content m2)) ∧
    (response = forwarding_message ↔
       ¬ substring_of (lit "Match") (content m2) ∧
       substring_of (lit "Senior-level") (content m1)) ∧
    (response = decline_message ↔
       ¬ substring_of (lit "Match") (content m2) ∧
       ¬ substring_of (lit "Senior-level") (content m1)).
Proof.
  intros H1 H2. eexists.
  split; [exact (run_candidate_screening_replies _ _ _ _ _ _ H1 H2)|].
  rewrite <- !py_in_spec.
  destruct (py_in (lit "Match") (content m2));
    [|destruct (py_in (lit "Senior-level") (content m1))];
    split_and!; split; try done; try (by intros [? ?]);
    intros Heq; by vm_compute in Heq.
Qed.

(** X4. When the skill matcher answers with either of the two labels it
    is asked for, "Match" or "No Match", padded with whitespace or not,
    the candidate is shortlisted, whatever the experience answer. *)
Theorem asked_labels_are_shortlisted (application : list N)
    (w w1 w2 : World) (m1 m2 : AIMessage) :
  llm (prompt_text experience_prompt application) w = (w1, Replied m1) →
  llm (prompt_text skillset_prompt application) w1 = (w2, Replied m2) →
  strip (content m2) = lit "Match" ∨ strip (content m2) = lit "No Match" →
  run_candidate_screening application w =
    (w2, Ok {[ "experience_level" := strip (content m1);
               "skill_match" := strip (content m2);
               "response" := shortlist_message ]}).
Proof.
  intros H1 H2 Hlabel.
  rewrite (run_candidate_screening_replies _ _ _ _ _ _ H1 H2).
  rewrite <- (py_in_strip (lit "Match") (content m2) 77 104)%N by done.
  by destruct Hlabel as [-> | ->].
Qed.

(** X5. In every record the entry point returns, the status colour
    computed from its two labels names the response it carries:
    "success" with the shortlist message, "warning" with the forwarding
    message, "error" with the decline message. *)
Theorem status_color_names_response (application : list N) (w w' : World)
    (results : gmap string (list N)) :
  run_candidate_screening application w = (w', Ok results) →
  ∃ experience_level skill_match response,
    results !! "experience_level" = Some experience_level ∧
    results !! "skill_match" = Some skill_match ∧
    results !! "response" = Some response ∧
    (get_status_color skill_match experience_level = "success" ↔
       response = shortlist_message) ∧
    (get_status_color skill_match experience_level = "warning" ↔
       response = forwarding_message) ∧
    (get_status_color skill_match experience_level = "error" ↔
       response = decline_message).
Proof.
  rewrite run_candidate_screening_unfold.
  destruct (llm _ w) as [w1 [m1|reason]]; [|done].
  destruct (llm _ w1) as [w2 [m2|reason]]; [|done].
  intros [= <- <-]. eexists _, _, _.
  split; [done|]. split; [done|]. split; [done|].
  rewrite response_of_route_of. unfold get_status_color.
  destruct (py_in (lit "Match") _); [|destruct (py_in (lit "Senior-level") _)];
    split_and!; split; try done; intros Heq; by vm_compute in Heq.
Qed.

(** X6. A node run on a state without the application raises the
    KeyError of that key before any call to the backend, and so does the
    compiled workflow invoked on such an input. *)
Theorem missing_application_raises (state : gmap string (list N)) (w : World) :
  state !! "application" = None →
  categorize_experience state w = (w, Raise (KeyError "application")) ∧
  assess_skillset state w = (w, Raise (KeyError "application")) ∧
  invoke app state w = (w, Raise (KeyError "application")).
Proof.
  intros Hnone.
  assert (Hc : categorize_experience state w = (w, Raise (KeyError "application"))).
  { unfold categorize_experience, bind, lift, getitem. by rewrite Hnone. }
  split_and!; [done| |].
  - unfold assess_skillset, bind, lift, getitem. by rewrite Hnone.
  - unfold invoke, stream, app, recursion_limit.
    rewrite (proj1 (workflow_next _)).
    destruct workflow_nodes as (Hn & _).
    erewrite pregel_loop_step;
      [|unfold END; intros ?; discriminate|exact Hn].
    by rewrite Hc.
Qed.

(** X7. Both prompts end in the application text as it was given, after
    a fixed text of their own; the two fixed texts differ, so the two
    requests of a run are never the same text, and each prompt
    determines the application it was built from. *)
Theorem prompts_carry_application (application : list N) :
  prompt_text experience_prompt application
    = prompt_text experience_prompt [] ++ application ∧
  prompt_text skillset_prompt application
    = prompt_text skillset_prompt [] ++ application ∧
  prompt_text experience_prompt application
    ≠ prompt_text skillset_prompt application ∧
  (∀ other,
     prompt_text experience_prompt application
       = prompt_text experience_prompt other → application = other) ∧
  (∀ other,
     prompt_text skillset_prompt application
       = prompt_text skillset_prompt other → application = other).
Proof.
  assert (He : ∀ a, prompt_text experience_prompt a
                    = prompt_text experience_prompt [] ++ a).
  { intros a. unfold prompt_text, experience_prompt. simpl.
    unfold getitem. rewrite !lookup_singleton_eq.
    by rewrite !app_nil_r. }
  assert (Hs : ∀ a, prompt_text skillset_prompt a
                    = prompt_text skillset_prompt [] ++ a).
  { intros a. unfold prompt_text, skillset_prompt. simpl.
    unfold getitem. rewrite !lookup_singleton_eq.
    by rewrite !app_nil_r. }
  split_and!; [done|done| | |].
  - rewrite He, Hs. intros Heq. vm_compute in Heq. discriminate Heq.
  - intros other. rewrite He, (He other). apply app_inv_head.
  - intros other. rewrite Hs, (Hs other). apply app_inv_head.
Qed.

End Decision.

(** ** The requests of a run *)

(** X8. Keeping a log of the prompts does not change a run. A run sends
    the backend the experience prompt first; if that call fails it sends
    nothing more, otherwise it sends the skillset prompt and then
    nothing more, whether that second call fails or not. *)
Theorem run_sends_two_prompts (port : ClassifierPort) (application : list N)
    (w : @World port) (log : list (list N)) :
  let run := @run_candidate_screening (logged port) application (w, log) in
  let first := prompt_text experience_prompt application in
  let second := prompt_text skillset_prompt application in
  (run.1.1, run.2) = @run_candidate_screening port application w ∧
  ((run.1.2 = log ++ [first] ∧
    ∃ reason, (@llm port first w).2 = Failed reason) ∨
   (run.1.2 = log ++ [first; second] ∧
    ∃ message, (@llm port first w).2 = Replied message)).
Proof.
  intros run first second. subst run first second.
  rewrite !run_candidate_screening_unfold. simpl.
  destruct (@llm port _ w) as [w1 [m1|reason]]; simpl.
  - destruct (@llm port _ w1) as [w2 [m2|reason]]; simpl;
      (split; [done|right; split; [by rewrite <- app_assoc|by eexists]]).
  - split; [done|left; split; [done|by eexists]].
Qed.

(** ** The page: refusals, failures and what the history holds *)

Section Page.
Context `{ClassifierPort}.

(** X9. Text that is empty or all whitespace is refused: the backend is
    not called and the history is left as it was. *)
Theorem blank_application_refused (timestamp application_text : list N)
    (screening_history : list (gmap string (list N))) (w : World) :
  all_space application_text →
  on_screen timestamp application_text screening_history w
  = (w, screening_history).
Proof.
  intros Hblank. unfold on_screen.
  by rewrite (proj2 (strip_nil_iff _) Hblank).
Qed.

(** X10. A press of "Screen Application" leaves the history as it was
    exactly when the text is blank or the run raises; in every other
    case the history gains one entry, and no press ever removes or
    rewrites one. *)
Theorem screening_changes_history_iff (timestamp application_text : list N)
    (screening_history : list (gmap string (list N))) (w : World) :
  ((on_screen timestamp application_text screening_history w).2
     = screening_history ↔
   all_space application_text ∨
   ∃ w' e, run_candidate_screening application_text w = (w', Raise e)) ∧
  ((on_screen timestamp application_text screening_history w).2
     = screening_history ∨
   ∃ entry, (on_screen timestamp application_text screening_history w).2
              = entry :: screening_history).
Proof.
  unfold on_screen.
  destruct (strip application_text) as [|c rest] eqn:Hstrip.
  { apply strip_nil_iff in Hstrip. split; [by split; [left|]|by left]. }
  assert (Hnot : ¬ all_space application_text).
  { intros Hblank. apply strip_nil_iff in Hblank. congruence. }
  destruct (run_candidate_screening application_text w) as [w' [results|e]].
  - rewrite py_list_insert_front. simpl. split; [|right; by eexists].
    split.
    + intros Heq. apply (f_equal length) in Heq. simpl in Heq. lia.
    + intros [?|(? & ? & [=])]. done.
  - simpl. split; [|by left]. split; [|done]. intros _. right. by eexists _, _.
Qed.

Lemma screening_result_lookup_application (timestamp application_text : list N)
    (results : gmap string (list N)) :
  results !! "application" = None →
  screening_result timestamp application_text results !! "application" =
    Some (if decide (100 < length application_text)
          then take 100 application_text ++ lit "..."
          else application_text).
Proof.
  intros Hnone. unfold screening_result.
  rewrite lookup_union_r by done.
  rewrite lookup_insert_ne by done. by rewrite lookup_singleton_eq.
Qed.

(** X11. In a history entry the keys of the result win over the two the
    page adds. When the result has no application of its own, the entry
    stores the application text whole if it has at most 100 characters,
    and otherwise its first 100 characters followed by three dots, 103
    in all; either way the first 100 characters are those of the
    text. *)
Theorem screening_result_application (timestamp application_text : list N)
    (results : gmap string (list N)) :
  (∀ key value, results !! key = Some value →
     screening_result timestamp application_text results !! key = Some value) ∧
  (results !! "application" = None →
   ∃ stored,
     screening_result timestamp application_text results !! "application"
       = Some stored ∧
     length stored ≤ 103 ∧
     take 100 stored = take 100 application_text ∧
     (length application_text ≤ 100 → stored = application_text) ∧
     (100 < length application_text →
        stored = take 100 application_text ++ lit "..." ∧ length stored = 103)).
Proof.
  split.
  - intros key value Hkey. unfold screening_result.
    by apply lookup_union_Some_l.
  - intros Hnone. eexists.
    split; [by apply screening_result_lookup_application|].
    case_decide as Hlong.
    + assert (Hlen : length (take 100 application_text) = 100)
        by (rewrite length_take; lia).
      split_and!.
      * rewrite length_app, Hlen. simpl. lia.
      * rewrite take_app_le by lia. rewrite take_take. by rewrite Nat.min_id.
      * lia.
      * intros _. split; [done|]. rewrite length_app, Hlen. simpl. lia.
    + split_and!; [lia|done|done|lia].
Qed.

Lemma screening_result_well_formed
    (timestamp application_text experience_level skill_match response : list N) :
  response ∈ [shortlist_message; forwarding_message; decline_message] →
  well_formed_entry
    (screening_result timestamp application_text
       {[ "experience_level" := experience_level;
          "skill_match" := skill_match;
          "response" := response ]}).
Proof.
  intros Hresponse. split_and!.
  - unfold screening_result.
    rewrite dom_union_L, !dom_insert_L, !dom_singleton_L. set_solver.
  - exists response. split; [|done].
    unfold screening_result. apply lookup_union_Some_l.
    rewrite !lookup_insert_ne by done. by rewrite lookup_singleton_eq.
  - eexists. split.
    + apply screening_result_lookup_application.
      rewrite !lookup_insert_ne by done. by rewrite lookup_singleton_ne.
    + case_decide; [|lia]. rewrite length_app, length_take.
      change (length (lit "...")) with 3. lia.
Qed.

Lemma on_screen_well_formed (timestamp application_text : list N)
    (screening_history : list (gmap string (list N))) (w : World) :
  Forall well_formed_entry screening_history →
  Forall well_formed_entry
    (on_screen timestamp application_text screening_history w).2.
Proof.
  intros Hwf. unfold on_screen.
  destruct (strip application_text); [done|].
  rewrite run_candidate_screening_unfold.
  destruct (llm _ w) as [w1 [m1|reason]]; [|done].
  destruct (llm _ w1) as [w2 [m2|reason]]; [|done].
  rewrite py_list_insert_front. simpl. constructor; [|done].
  apply screening_result_well_formed, response_of_cases.
Qed.

(** X12. Whatever the user does and whatever the backend answers, the
    history keeps its form: if every entry has exactly the five keys
    timestamp, application, experience_level, skill_match and response,
    with one of the three fixed messages as response and an application
    of at most 103 characters, then so has every entry after any
    sequence of events. *)
Theorem history_stays_well_formed (events : list event)
    (screening_history : list (gmap string (list N))) (w : World) :
  Forall well_formed_entry screening_history →
  Forall well_formed_entry (session events screening_history w).2.
Proof.
  revert screening_history w.
  induction events as [|e events IH]; intros screening_history w Hwf; [done|].
  simpl. destruct (handle e screening_history w) as [w' history'] eqn:Hhandle.
  apply IH. destruct e as [timestamp application_text|]; simpl in Hhandle.
  - pose proof (on_screen_well_formed timestamp application_text _ w Hwf) as Hon.
    by rewrite Hhandle in Hon.
  - injection Hhandle as <- <-. constructor.
Qed.

(** X13. After "Clear History" nothing screened before it is left: the
    history then holds only the screenings completed since, newest
    first. *)
Theorem clear_drops_earlier_screenings (earlier later : list event)
    (screening_history : list (gmap string (list N))) (w : World) :
  ClearHistory ∉ later →
  (session (earlier ++ ClearHistory :: later) screening_history w).2
  = reverse (completed later (session earlier screening_history w).1).
Proof.
  intros Hclear. rewrite session_app. simpl.
  rewrite session_completed by done. by rewrite app_nil_r.
Qed.

End Page.

(** ** The figures and the decision box *)

Section FiguresFacts.
Variable lower : list N → list N.
Hypothesis lower_plain : lowers_plain_text lower.

Lemma lower_messages :
  lower shortlist_message = ascii_lower <$> shortlist_message ∧
  lower forwarding_message = ascii_lower <$> forwarding_message ∧
  lower decline_message = ascii_lower <$> decline_message.
Proof.
  split_and!; apply lower_plain; apply (bool_decide_unpack _); by vm_compute.
Qed.

Lemma words_in_messages (response : list N) :
  response ∈ [shortlist_message; forwarding_message; decline_message] →
  py_in (lit "shortlisted") (lower response)
    = bool_decide (response = shortlist_message) ∧
  py_in (lit "forwarding") (lower response)
    = bool_decide (response = forwarding_message).
Proof.
  destruct lower_messages as (Hs & Hf & Hd).
  rewrite !elem_of_cons, elem_of_nil. intros [-> | [-> | [-> | []]]].
  - rewrite Hs. split; by vm_compute.
  - rewrite Hf. split; by vm_compute.
  - rewrite Hd. split; by vm_compute.
Qed.

Lemma decision_box_messages (response : list N) :
  response ∈ [shortlist_message; forwarding_message; decline_message] →
  decision_box lower response =
    if bool_decide (response = shortlist_message) then "success"
    else if bool_decide (response = forwarding_message) then "warning"
    else "error".
Proof.
  intros Hin. unfold decision_box.
  by destruct (words_in_messages response Hin) as [-> ->].
Qed.

Lemma count_message_cons (message : list N) (entry : gmap string (list N))
    (rest : list (gmap string (list N))) :
  count_message message (entry :: rest) =
    ((if bool_decide (entry !! "response" = Some message) then 1 else 0)
     + count_message message rest)%Z.
Proof.
  unfold count_message. rewrite filter_cons.
  case_bool_decide as Hd; rewrite decide_bool_decide;
    case_bool_decide; try done; simpl; lia.
Qed.

Lemma count_responses_well_formed
    (screening_history : list (gmap string (list N))) :
  Forall well_formed_entry screening_history →
  count_responses lower (lit "shortlisted") screening_history
    = Ok (count_message shortlist_message screening_history) ∧
  count_responses lower (lit "forwarding") screening_history
    = Ok (count_message forwarding_message screening_history) ∧
  Z.of_nat (length screening_history) =
    (count_message shortlist_message screening_history
     + count_message forwarding_message screening_history
     + count_message decline_message screening_history)%Z.
Proof.
  induction 1 as [|entry rest (_ & (response & Hresponse & Hin) & _) _
                    (IHs & IHf & IHlen)]; [done|].
  rewrite !count_message_cons. cbn [count_responses].
  rewrite (getitem_Some _ _ _ Hresponse), IHs, IHf, Hresponse.
  destruct (words_in_messages response Hin) as [-> ->].
  rewrite length_cons, Nat2Z.inj_succ, IHlen.
  revert Hin. rewrite !elem_of_cons, elem_of_nil.
  intros [-> | [-> | [-> | []]]]; split_and!;
    repeat case_bool_decide; simplify_eq; try done; try (f_equal; lia); try lia.
Qed.

(** X14. On a history whose entries have the form the page gives them,
    the quick stats are counts of entries: shortlisted, escalated and
    rejected are the numbers of entries carrying the shortlist, the
    forwarding and the decline message, none of them negative, and they
    add up to the total. *)
Theorem quick_stats_count_messages
    (screening_history : list (gmap string (list N))) :
  Forall well_formed_entry screening_history →
  screening_history ≠ [] →
  quick_stats lower screening_history =
    Some (Ok {| total_applications := Z.of_nat (length screening_history);
                shortlisted := count_message shortlist_message screening_history;
                escalated := count_message forwarding_message screening_history;
                rejected := count_message decline_message screening_history |}) ∧
  (0 ≤ count_message decline_message screening_history)%Z.
Proof.
  intros Hwf Hne.
  destruct (count_responses_well_formed _ Hwf) as (Hs & Hf & Hlen).
  split; [|unfold count_message; lia].
  destruct screening_history as [|entry rest]; [done|].
  unfold quick_stats. rewrite Hs, Hf. do 3 f_equal. lia.
Qed.

End FiguresFacts.

Section BoxFacts.
Context `{ClassifierPort}.
Variable lower : list N → list N.
Hypothesis lower_plain : lowers_plain_text lower.

(** X15. For every record the entry point returns, the box the response
    is shown in has the colour of the status computed from the two
    labels: both are "success", both "warning" or both "error". *)
Theorem decision_box_matches_status (application : list N) (w w' : World)
    (results : gmap string (list N)) :
  run_candidate_screening application w = (w', Ok results) →
  ∃ experience_level skill_match response,
    results !! "experience_level" = Some experience_level ∧
    results !! "skill_match" = Some skill_match ∧
    results !! "response" = Some response ∧
    decision_box lower response
      = get_status_color skill_match experience_level.
Proof.
  rewrite run_candidate_screening_unfold.
  destruct (llm _ w) as [w1 [m1|reason]]; [|done].
  destruct (llm _ w1) as [w2 [m2|reason]]; [|done].
  intros [= <- <-]. eexists _, _, _.
  split; [done|]. split; [done|]. split; [done|].
  rewrite (decision_box_messages lower lower_plain) by apply response_of_cases.
  rewrite response_of_route_of. unfold get_status_color.
  destruct (py_in (lit "Match") _); [|destruct (py_in (lit "Senior-level") _)];
    by vm_compute.
Qed.

End BoxFacts.

(** ** The application form *)

Lemma substring_of_here (x rest : list N) : substring_of x (x ++ rest).
Proof. by exists [], rest. Qed.

Lemma substring_of_skip (x skipped l : list N) :
  substring_of x l → substring_of x (skipped ++ l).
Proof.
  intros (pre & post & ->). exists (skipped ++ pre), post.
  by rewrite <- app_assoc.
Qed.

Lemma substring_of_join (sep x : list N) (parts : list (list N)) :
  x ∈ parts → substring_of x (join sep parts).
Proof.
  induction parts as [|p parts IH]; [by rewrite elem_of_nil|].
  rewrite elem_of_cons. intros [-> | Hin].
  - destruct parts as [|q parts]; simpl.
    + exists [], []. by rewrite app_nil_r.
    + apply substring_of_here.
  - destruct parts as [|q parts]; [by apply elem_of_nil in Hin|].
    change (join sep (p :: q :: parts)) with (p ++ sep ++ join sep (q :: parts)).
    by do 2 apply substring_of_skip; apply IH.
Qed.

Section FormFacts.
Context `{ClassifierPort}.

(** X16. A form with a name and at least one skill gives a text that is
    not blank, so the screening is not refused, and the text holds the
    name, the years in decimal, every chosen skill and the additional
    information as they were entered. *)
Theorem filled_form_text (name : list N) (experience_years : Z)
    (skills : list (list N)) (additional_info : list N) :
  name ≠ [] → skills ≠ [] →
  let text :=
    form_application_text name experience_years skills additional_info in
  ¬ all_space text ∧
  substring_of name text ∧
  substring_of (lit (pretty experience_years)) text ∧
  (∀ skill, skill ∈ skills → substring_of skill text) ∧
  substring_of additional_info text.
Proof.
  intros Hname Hskills text. subst text. unfold form_application_text.
  rewrite bool_decide_eq_true_2 by done.
  split_and!.
  - intros Hblank.
    apply Forall_app in Hblank as [_ Hblank].
    apply Forall_app in Hblank as [Hblank _].
    rewrite Forall_forall in Hblank.
    assert (Hin : 78%N ∈ lit "                Name: ")
      by (apply (bool_decide_unpack _); by vm_compute).
    specialize (Hblank 78%N Hin). discriminate Hblank.
  - do 2 apply substring_of_skip. apply substring_of_here.
  - do 5 apply substring_of_skip. apply substring_of_here.
  - intros skill Hin. do 9 apply substring_of_skip.
    rewrite app_assoc. destruct (substring_of_join (lit ", ") skill skills Hin)
      as (pre & post & ->).
    exists pre, (post ++ newline ++
                 lit "                Additional Information: " ++
                 additional_info ++ newline ++ lit "                ").
    by rewrite <- !app_assoc.
  - do 12 apply substring_of_skip. apply substring_of_here.
Qed.

(** X17. A form without a name or without any skill gives the empty
    text, and screening it is refused: no call to the backend, no change
    to the history. *)
Theorem empty_form_refused (name : list N) (experience_years : Z)
    (skills : list (list N)) (additional_info timestamp : list N)
    (screening_history : list (gmap string (list N))) (w : World) :
  name = [] ∨ skills = [] →
  form_application_text name experience_years skills additional_info = [] ∧
  on_screen timestamp
    (form_application_text name experience_years skills additional_info)
    screening_history w
  = (w, screening_history).
Proof.
  intros Hempty.
  assert (Htext : form_application_text name experience_years skills
                    additional_info = []).
  { unfold form_application_text. rewrite bool_decide_eq_false_2; [done|].
    intros [? ?]. by destruct Hempty. }
  by rewrite Htext.
Qed.

End FormFacts.

(** ** The terminal version *)

Section TerminalFacts.
Context `{ClassifierPort}.

Lemma prefix_print (text : list N) (before after : list (list N)) :
  before `prefix_of` after → before `prefix_of` print text after.
Proof. intros Hp. unfold print. by apply prefix_app_r. Qed.

Lemma prefix_write_prompt (prompt : list N) (before after : list (list N)) :
  before `prefix_of` after → before `prefix_of` write_prompt prompt after.
Proof. intros Hp. unfold write_prompt. by apply prefix_app_r. Qed.

Lemma last_print (text : list N) (stdout : list (list N)) :
  last (print text stdout) = Some (text ++ newline).
Proof. unfold print. apply last_snoc. Qed.

Lemma print_results_complete
    (experience_level skill_match response : list N) (stdout : list (list N)) :
  ∃ stdout',
    print_results {[ "experience_level" := experience_level;
                     "skill_match" := skill_match;
                     "response" := response ]} stdout = (stdout', None) ∧
    stdout `prefix_of` stdout'.
Proof.
  eexists. unfold print_results, getitem.
  rewrite lookup_insert_eq.
  rewrite lookup_insert_ne, lookup_insert_eq by done.
  rewrite !lookup_insert_ne, lookup_singleton_eq by done.
  split; [reflexivity|]. by repeat apply prefix_print.
Qed.

Lemma ends_well_later (skipped stdin stdout stdout' : list (list N))
    (run : terminal_run) :
  stdout `prefix_of` stdout' →
  ends_well stdin stdout' run → ends_well (skipped ++ stdin) stdout run.
Proof.
  intros Hout (Hunread & Hstdout & Hend). split_and!.
  - by apply suffix_app_r.
  - by transitivity stdout'.
  - destruct (how_ended run); [|done|done].
    destruct Hend as [(read & choice & -> & Hchoice) Hlast]. split; [|done].
    exists (skipped ++ read), choice. by rewrite <- app_assoc.
Qed.

Ltac stdout_grows :=
  repeat first [apply prefix_print | apply prefix_write_prompt]; done.

Lemma terminal_loop_ends_within (n : nat) (stdin stdout : list (list N))
    (w : World) :
  length stdin ≤ n → ends_well stdin stdout (terminal_loop stdin stdout w).
Proof.
  revert stdin stdout w.
  induction n as [|n IH]; intros [|line stdin1] stdout w Hlen;
    simpl in Hlen; try lia.
  - split_and!; [done|stdout_grows|done].
  - split_and!; [done|stdout_grows|done].
  - cbn [terminal_loop]. case_decide as Hone; [|case_decide as Htwo].
    + destruct stdin1 as [|application_text stdin2].
      { split_and!; [by apply suffix_nil|stdout_grows|done]. }
      simpl in Hlen.
      destruct (strip application_text) as [|c text].
      { apply (ends_well_later [line; application_text]) with (stdout' :=
          print (0x26A0%N :: 0xFE0F%N :: lit " Please provide application text.")
            (write_prompt (lit "Enter candidate application text: ")
               (print (newline ++ rule 50)
                  (write_prompt (newline ++ lit "Enter your choice (1-2): ")
                     (print (lit "2. Exit")
                        (print (lit "1. Screen a candidate")
                           (print (newline ++ lit "Options:") stdout)))))));
          [stdout_grows|apply IH; lia]. }
      rewrite run_candidate_screening_unfold.
      destruct (llm _ w) as [w1 [m1|reason]].
      * destruct (llm _ w1) as [w2 [m2|reason]].
        -- edestruct print_results_complete as (stdout' & -> & Hgrows).
           apply (ends_well_later [line; application_text]) with (stdout' := stdout');
             [|apply IH; lia].
           etransitivity; [|exact Hgrows]. stdout_grows.
        -- split_and!; simpl.
           ++ by do 2 apply suffix_cons_r.
           ++ stdout_grows.
           ++ split; [by eexists|apply last_print].
      * split_and!; simpl.
        -- by do 2 apply suffix_cons_r.
        -- stdout_grows.
        -- split; [by eexists|apply last_print].
    + split_and!; simpl.
      * by apply suffix_cons_r.
      * stdout_grows.
      * split; [by exists [], line|apply last_print].
    + apply (ends_well_later [line]) with (stdout' :=
        print (0x274C%N :: lit " Invalid choice. Please try again.")
          (write_prompt (newline ++ lit "Enter your choice (1-2): ")
             (print (lit "2. Exit")
                (print (lit "1. Screen a candidate")
                   (print (newline ++ lit "Options:") stdout)))));
        [stdout_grows|apply IH; lia].
Qed.

(** X18. On every input the terminal version stops, and in one of three
    ways only: on a choice that strips to "2", after saying goodbye and
    with the lines after that choice left unread; at the end of the
    input; or on an error of the backend, right after announcing the
    processing and with no result printed. It never fails on a missing
    key. Whatever it had written stays written. *)
Theorem run_terminal_version_ends (stdin : list (list N)) (w : World) :
  ends_well stdin
    [ 0x1F916%N :: lit " HR Candidate Screening System" ++ newline;
      rule 50 ++ newline ]
    (run_terminal_version stdin w).
Proof.
  unfold run_terminal_version. by eapply terminal_loop_ends_within.
Qed.

End TerminalFacts.

(** ** The further properties at the stubs *)

Example route_application_raises_missing_level :
  route_application {[ "skill_match" := lit "Unsure" ]}
  = Raise (KeyError "experience_level").
Proof. reflexivity. Qed.

Example form_application_text_example :
  form_application_text (lit "Ada") 3 [lit "Python"; lit "Git"] (lit "Compilers")
  = newline ++ lit "                Name: Ada" ++ newline ++
    lit "                Experience: 3 years" ++ newline ++
    lit "                Skills: Python, Git" ++ newline ++
    lit "                Additional Information: Compilers" ++ newline ++
    lit "                ".
Proof. vm_compute. reflexivity. Qed.

Example terminal_exit_example :
  how_ended (@run_terminal_version keyword_stub
               [lit "9"; lit " 2 "; lit "1"] 0%nat) = Exited ∧
  unread (@run_terminal_version keyword_stub
            [lit "9"; lit " 2 "; lit "1"] 0%nat) = [lit "1"].
Proof. split; vm_compute; reflexivity. Qed.

Example terminal_crash_example :
  how_ended (@run_terminal_version flaky_stub
               [lit "1"; lit "Three years of Flask"; lit "2"] 1%nat)
  = Crashed (BackendError (lit "503 Service Unavailable")).
Proof. vm_compute. reflexivity. Qed.

Lemma run_candidate_screening_decision_witness :
  let application := lit "Architect, 12 years of Java" in
  let m1 := {| content := lit "  Senior-level" ++ newline |} in
  let m2 := {| content := lit "No Match " |} in
  @llm keyword_stub (prompt_text experience_prompt application) 0%nat
    = (1%nat, Replied m1) ∧
  @llm keyword_stub (prompt_text skillset_prompt application) 1%nat
    = (2%nat, Replied m2) ∧
  ∃ response,
    @run_candidate_screening keyword_stub application 0%nat =
      (2%nat, Ok {[ "experience_level" := lit "Senior-level";
                    "skill_match" := lit "No Match";
                    "response" := response ]}) ∧
    (response = shortlist_message ↔ substring_of (lit "Match") (content m2)).
Proof.
  intros application m1 m2.
  split; [reflexivity|]. split; [reflexivity|].
  destruct (@run_candidate_screening_decision keyword_stub application
              0%nat 1%nat 2%nat m1 m2 eq_refl eq_refl)
    as (response & Hrun & Hshort & _).
  exists response. split; [exact Hrun|exact Hshort].
Defined.

Lemma asked_labels_are_shortlisted_witness :
  let application := lit "Architect, 12 years of Java" in
  let m1 := {| content := lit "  Senior-level" ++ newline |} in
  let m2 := {| content := lit "No Match " |} in
  @llm keyword_stub (prompt_text experience_prompt application) 0%nat
    = (1%nat, Replied m1) ∧
  @llm keyword_stub (prompt_text skillset_prompt application) 1%nat
    = (2%nat, Replied m2) ∧
  (strip (content m2) = lit "Match" ∨ strip (content m2) = lit "No Match") ∧
  @run_candidate_screening keyword_stub application 0%nat =
    (2%nat, Ok {[ "experience_level" := lit "Senior-level";
                  "skill_match" := lit "No Match";
                  "response" := shortlist_message ]}).
Proof.
  intros application m1 m2.
  split; [reflexivity|]. split; [reflexivity|]. split; [right; reflexivity|].
  exact (@asked_labels_are_shortlisted keyword_stub application
           0%nat 1%nat 2%nat m1 m2 eq_refl eq_refl (or_intror eq_refl)).
Defined.

Lemma status_color_names_response_witness :
  let application := lit "Architect, 12 years of Java" in
  let results : gmap string (list N) :=
    {[ "experience_level" := lit "Senior-level";
       "skill_match" := lit "No Match";
       "response" := shortlist_message ]} in
  @run_candidate_screening keyword_stub application 0%nat
    = (2%nat, Ok results) ∧
  ∃ experience_level skill_match response,
    results !! "experience_level" = Some experience_level ∧
    results !! "skill_match" = Some skill_match ∧
    results !! "response" = Some response ∧
    (get_status_color skill_match experience_level = "success" ↔
       response = shortlist_message).
Proof.
  intros application results.
  assert (Hrun : @run_candidate_screening keyword_stub application 0%nat
                 = (2%nat, Ok results)) by (vm_compute; reflexivity).
  split; [exact Hrun|].
  destruct (@status_color_names_response keyword_stub application
              0%nat 2%nat results Hrun)
    as (experience_level & skill_match & response & He & Hs & Hr & Hok & _).
  by exists experience_level, skill_match, response.
Defined.

Lemma missing_application_raises_witness :
  (∅ : gmap string (list N)) !! "application" = None ∧
  @invoke keyword_stub (@app keyword_stub) ∅ 0%nat
    = (0%nat, Raise (KeyError "application")).
Proof.
  split; [reflexivity|].
  exact (proj2 (proj2 (@missing_application_raises keyword_stub ∅ 0%nat eq_refl))).
Defined.

Lemma blank_application_refused_witness :
  let text := lit "   " ++ newline in
  all_space text ∧
  @on_screen keyword_stub (lit "2025-01-07 09:30:00") text [] 0%nat = (0%nat, []).
Proof.
  intros text.
  assert (Hblank : all_space text) by (repeat constructor).
  split; [exact Hblank|].
  exact (@blank_application_refused keyword_stub (lit "2025-01-07 09:30:00")
           text [] 0%nat Hblank).
Defined.

Lemma screening_result_application_witness :
  let text := replicate 150 97%N in
  let results : gmap string (list N) := {[ "response" := decline_message ]} in
  results !! "response" = Some decline_message ∧
  results !! "application" = None ∧
  100 < length text ∧
  screening_result (lit "2025-01-07 09:30:00") text results !! "response"
    = Some decline_message ∧
  ∃ stored,
    screening_result (lit "2025-01-07 09:30:00") text results !! "application"
      = Some stored ∧
    stored = take 100 text ++ lit "..." ∧ length stored = 103.
Proof.
  intros text results.
  assert (Hlong : 100 < length text) by (vm_compute; lia).
  destruct (screening_result_application (lit "2025-01-07 09:30:00") text results)
    as [Hkeys Happlication].
  split; [reflexivity|]. split; [reflexivity|]. split; [exact Hlong|].
  split; [exact (Hkeys "response" decline_message eq_refl)|].
  destruct (Happlication eq_refl) as (stored & Hstored & _ & _ & _ & Hcut).
  exists stored. split; [exact Hstored|exact (Hcut Hlong)].
Defined.

Lemma history_stays_well_formed_witness :
  let events :=
    [ ScreenApplication (lit "2025-01-07 09:30:00") (lit "Architect, 12 years of Java");
      ClearHistory;
      ScreenApplication (lit "2025-01-07 09:32:45") (lit "Python and Django, two years") ] in
  Forall well_formed_entry ([] : list (gmap string (list N))) ∧
  Forall well_formed_entry (@session keyword_stub events [] 0%nat).2.
Proof.
  intros events.
  split; [constructor|].
  exact (@history_stays_well_formed keyword_stub events [] 0%nat (Forall_nil_2 _)).
Defined.

Lemma clear_drops_earlier_screenings_witness :
  let earlier :=
    [ ScreenApplication (lit "2025-01-07 09:30:00") (lit "Architect, 12 years of Java") ] in
  let later :=
    [ ScreenApplication (lit "2025-01-07 09:32:45") (lit "Python and Django, two years") ] in
  (ClearHistory ∉ later) ∧
  (@session keyword_stub (earlier ++ ClearHistory :: later) [] 0%nat).2
  = reverse (@completed keyword_stub later (@session keyword_stub earlier [] 0%nat).1).
Proof.
  intros earlier later.
  assert (Hclear : ClearHistory ∉ later).
  { intros Hin. apply elem_of_cons in Hin as [Hin|Hin]; [discriminate Hin|].
    by apply elem_of_nil in Hin. }
  split; [exact Hclear|].
  exact (@clear_drops_earlier_screenings keyword_stub earlier later [] 0%nat Hclear).
Defined.

Lemma quick_stats_count_messages_witness :
  let lower : list N → list N := fmap ascii_lower in
  let screening_history :=
    [ screening_result (lit "2025-01-07 09:32:45") (lit "Two years of Excel")
        {[ "experience_level" := lit "Entry-level";
           "skill_match" := lit "None";
           "response" := decline_message ]};
      screening_result (lit "2025-01-07 09:30:00") (lit "Python and Django")
        {[ "experience_level" := lit "Mid-level";
           "skill_match" := lit "Match";
           "response" := shortlist_message ]} ] in
  lowers_plain_text lower ∧
  Forall well_formed_entry screening_history ∧
  screening_history ≠ [] ∧
  quick_stats lower screening_history =
    Some (Ok {| total_applications := 2; shortlisted := 1;
                escalated := 0; rejected := 1 |}).
Proof.
  intros lower screening_history.
  assert (Hlower : lowers_plain_text lower) by (intros s _; reflexivity).
  assert (Hwf : Forall well_formed_entry screening_history).
  { repeat constructor; apply screening_result_well_formed; set_solver. }
  assert (Hne : screening_history ≠ []) by discriminate.
  split; [exact Hlower|]. split; [exact Hwf|]. split; [exact Hne|].
  exact (proj1 (quick_stats_count_messages lower Hlower screening_history Hwf Hne)).
Defined.

Lemma decision_box_matches_status_witness :
  let lower : list N → list N := fmap ascii_lower in
  let application := lit "Architect, 12 years of Java" in
  let results : gmap string (list N) :=
    {[ "experience_level" := lit "Senior-level";
       "skill_match" := lit "No Match";
       "response" := shortlist_message ]} in
  lowers_plain_text lower ∧
  @run_candidate_screening keyword_stub application 0%nat
    = (2%nat, Ok results) ∧
  ∃ experience_level skill_match response,
    results !! "experience_level" = Some experience_level ∧
    results !! "skill_match" = Some skill_match ∧
    results !! "response" = Some response ∧
    decision_box lower response = get_status_color skill_match experience_level.
Proof.
  intros lower application results.
  assert (Hlower : lowers_plain_text lower) by (intros s _; reflexivity).
  assert (Hrun : @run_candidate_screening keyword_stub application 0%nat
                 = (2%nat, Ok results)) by (vm_compute; reflexivity).
  split; [exact Hlower|]. split; [exact Hrun|].
  exact (@decision_box_matches_status keyword_stub lower Hlower application
           0%nat 2%nat results Hrun).
Defined.

Lemma filled_form_text_witness :
  let name := lit "Ada" in
  let skills := [lit "Python"; lit "Git"] in
  let text := form_application_text name 3 skills (lit "Compilers") in
  name ≠ [] ∧ skills ≠ [] ∧
  ¬ all_space text ∧ substring_of name text ∧ substring_of (lit "Git") text.
Proof.
  intros name skills text.
  assert (Hname : name ≠ []) by discriminate.
  assert (Hskills : skills ≠ []) by discriminate.
  destruct (filled_form_text name 3 skills (lit "Compilers") Hname Hskills)
    as (Hblank & Hn & _ & Hs & _).
  split; [exact Hname|]. split; [exact Hskills|].
  split; [exact Hblank|]. split; [exact Hn|].
  apply Hs. set_solver.
Defined.

Lemma empty_form_refused_witness :
  let skills : list (list N) := [] in
  (lit "Ada" = [] ∨ skills = []) ∧
  @on_screen keyword_stub (lit "2025-01-07 09:30:00")
    (form_application_text (lit "Ada") 3 skills (lit "Compilers")) [] 0%nat
  = (0%nat, []).
Proof.
  intros skills. split; [right; reflexivity|].
  exact (proj2 (@empty_form_refused keyword_stub (lit "Ada") 3 skills
                  (lit "Compilers") (lit "2025-01-07 09:30:00") [] 0%nat
                  (or_intror eq_refl))).
Defined.
